(** * PyTransit: the limb-darkening kernel and the TESS time binner

    A shallow embedding of

    - [src/pytransit/models/ldtkldm.py]: [ntrapz], [eval_ldm],
      [eval_ldm_frozen], the base class [LDModel] and its subclass
      [LDTkLDModel];
    - [src/pytransit/lpf/tesslpf.py]: [downsample_time].

    Arrays are lists, read and written by index with stdpp's lookup, insert
    and alter.  The code computes on float64.  The kernels are written once
    over an interface of the float operations they use and are then read at
    two carriers: IEEE binary64 itself (Rocq's primitive floats), where every
    definition evaluates, and the real numbers, where the arithmetic
    identities of the trapezoidal rule are exact.  Random draws come from an
    explicit generator state; Python exceptions are an error result. *)

From Stdlib Require Import ZArith Reals Lra Lia Floats List Sorted.
From stdpp Require Import base list.
Import ListNotations.

Local Open Scope nat_scope.

(** ** Exceptions and results *)

(** The exceptions the modelled code can raise. *)
Inductive exn : Type :=
  | NotImplementedError
  | ValueError
  | ZeroDivisionError.

(** The outcome of a call: a returned value or a raised exception. *)
Inductive result (A : Type) : Type :=
  | Ok (a : A)
  | Raise (e : exn).

Arguments Ok {A} a.
Arguments Raise {A} e.

Definition is_ok {A : Type} (r : result A) : bool :=
  match r with Ok _ => true | Raise _ => false end.

(** ** The float operations of the kernels *)

(** The arithmetic the limb-darkening code uses: the literals [0.0] and
    [0.5], [numpy.pi], the four operations, [sqrt], and the conversion of a
    Python [int] to a float. *)
Class Arith (F : Type) : Type := {
  fzero : F;
  fhalf : F;
  fpi : F;
  fadd : F -> F -> F;
  fsub : F -> F -> F;
  fmul : F -> F -> F;
  fdiv : F -> F -> F;
  fsqrt : F -> F;
  fofZ : Z -> F
}.

(** What the time binner needs besides: the NaN sentinel, the comparisons,
    [isnan], [isfinite] and [int(ceil(x))]. *)
Class Float64 (F : Type) : Type := {
  f64_arith :: Arith F;
  fnan : F;
  fltb : F -> F -> bool;
  feqb : F -> F -> bool;
  fisnan : F -> bool;
  fisfinite : F -> bool;
  fceil_int : F -> Z
}.

(** *** Binary64 *)

(** Conversion of an integer to binary64 (exact below 2^53). *)
Definition float_of_Z (z : Z) : float :=
  if (z <? 0)%Z then PrimFloat.opp (PrimFloat.of_uint63 (Uint63.of_Z (- z)))
  else PrimFloat.of_uint63 (Uint63.of_Z z).

(** [int(ceil(x))] on binary64: the least integer not below [x], as a
    64-bit integer.  NaN, the infinities and values out of the int64 range
    give the x86-64 conversion's "integer indefinite", -2^63. *)
Definition float_ceil_int (x : float) : Z :=
  match Prim2SF x with
  | S754_zero _ => 0%Z
  | S754_finite s m e =>
      let k := if s then Z.neg m else Z.pos m in
      let c := if (0 <=? e)%Z then (k * 2 ^ e)%Z else (- ((- k) / 2 ^ (- e)))%Z in
      if ((- 2 ^ 63 <=? c) && (c <? 2 ^ 63))%Z then c else (- 2 ^ 63)%Z
  | _ => (- 2 ^ 63)%Z
  end.

#[export] Instance float_arith : Arith float := {|
  fzero := 0%float;
  fhalf := 0.5%float;
  fpi := 0x1.921fb54442d18p+1%float;
  fadd := PrimFloat.add;
  fsub := PrimFloat.sub;
  fmul := PrimFloat.mul;
  fdiv := PrimFloat.div;
  fsqrt := PrimFloat.sqrt;
  fofZ := float_of_Z
|}.

#[export] Instance float_float64 : Float64 float := {|
  f64_arith := float_arith;
  fnan := PrimFloat.nan;
  fltb := PrimFloat.ltb;
  feqb := PrimFloat.eqb;
  fisnan := PrimFloat.is_nan;
  fisfinite := PrimFloat.is_finite;
  fceil_int := float_ceil_int
|}.

(** *** Real numbers: float64 without rounding *)

#[export] Instance R_arith : Arith R := {|
  fzero := 0%R;
  fhalf := (1 / 2)%R;
  fpi := PI;
  fadd := Rplus;
  fsub := Rminus;
  fmul := Rmult;
  fdiv := Rdiv;
  fsqrt := R_sqrt.sqrt;
  fofZ := IZR
|}.

(** ** Arrays *)

Section Arrays.
Context {A : Type}.

(** [a[i]] of compiled code: numba emits no bounds check, and the model
    reads the default [d] where the index is out of range. *)
Definition getitem (d : A) (a : list A) (i : nat) : A := default d (a !! i).

(** [a[i, j] = v] on a two-dimensional array (nothing is stored where [i] or
    [j] is out of range). *)
Definition setitem2 (a : list (list A)) (i j : nat) (v : A) : list (list A) :=
  alter (fun row => <[j := v]> row) i a.

(** [a[mask]]: the elements of [a] where the boolean mask holds. *)
Fixpoint select (mask : list bool) (a : list A) : list A :=
  match mask, a with
  | m :: mask', v :: a' => if m then v :: select mask' a' else select mask' a'
  | _, _ => []
  end.

End Arrays.

(** ** Random draws *)

(** A generator state is the sequence of raw outcomes still to come; every
    sequence of draws is the behaviour of some state. *)
Definition rng : Type := nat -> Z.

Definition rng_next (g : rng) : rng := fun n => g (S n).

(** [randint(low, high)]: one integer of [[low, high)]; [ValueError] when the
    range is empty. *)
Definition randint (low high : Z) (g : rng) : result Z * rng :=
  if (low <? high)%Z
  then (Ok (low + g O mod (high - low))%Z, rng_next g)
  else (Raise ValueError, g).

(** [randint(low, high, size=size)] of compiled code: an array filled by
    [size] successive draws [randint(low, high)].  On an empty range the
    first draw raises; with [size = 0] nothing is drawn and the empty array
    is returned. *)
Fixpoint randint_size (low high : Z) (size : nat) (g : rng) : result (list Z) * rng :=
  match size with
  | 0 => (Ok [], g)
  | S size' =>
      match randint low high g with
      | (Raise e, g') => (Raise e, g')
      | (Ok v, g') =>
          match randint_size low high size' g' with
          | (Raise e, g'') => (Raise e, g'')
          | (Ok vs, g'') => (Ok (v :: vs), g'')
          end
      end
  end.

(** The two generators of a process: numpy's global one, which interpreted
    code draws from, and the one of numba's compiled code, which is seeded and
    advanced on its own. *)
Record world : Type := World { np_rng : rng; nb_rng : rng }.

(** ** ldtkldm.py: the numeric kernels *)

Section Kernels.
Context {F : Type} `{Arith F}.

(** [numpy.interp(x, xp, fp)], a routine of numpy: the kernels only pass its
    result on. *)
Variable interp : list F -> list F -> list F -> list F.

(** One turn of the loop of [ntrapz]: [ii += (x[i] - x[i-1]) * 0.5 * (y[i] + y[i-1])]. *)
Definition ntrapz_step (x y : list F) (ii : F) (i : nat) : F :=
  fadd ii (fmul (fmul (fsub (getitem fzero x i) (getitem fzero x (i - 1))) fhalf)
                (fadd (getitem fzero y i) (getitem fzero y (i - 1)))).

Definition ntrapz (x y : list F) : F :=
  let npt := length x in
  fold_left (ntrapz_step x y) (seq 1 (npt - 1)) fzero.

(** [z * p] on two one-dimensional arrays of one length. *)
Definition arr_mul (a b : list F) : list F := zip_with fmul a b.

(** [-2 * pi * ntrapz(z, z * p)]. *)
Definition disk_coefficient (z p : list F) : F :=
  fmul (fmul (fofZ (-2)) fpi) (ntrapz z (arr_mul z p)).

(** [ldps[ipb, k]]: the profile of passband [ipb] and sample [k]. *)
Definition profile_at (ldps : list (list (list F))) (ipb : nat) (k : Z) : list F :=
  getitem [] (getitem [] ldps ipb) (Z.to_nat k).

(** The profiles and the coefficients under construction. *)
Definition ld_arrays : Type := (list (list (list F)) * list (list F))%type.

Definition zeros3 (n m k : nat) : list (list (list F)) :=
  replicate n (replicate m (replicate k fzero)).

Definition zeros2 (n m : nat) : list (list F) := replicate n (replicate m fzero).

(** The body of the inner loop of [eval_ldm]. *)
Definition eval_ldm_body (emu mu z : list F) (ldps : list (list (list F)))
    (iis : list Z) (ipv : nat) (st : ld_arrays) (ipb : nat) : ld_arrays :=
  let p := profile_at ldps ipb (getitem 0%Z iis ipv) in
  (setitem2 st.1 ipv ipb (interp emu mu p),
   setitem2 st.2 ipv ipb (disk_coefficient z p)).

(** Its two loops, over [range(npv)] and [range(npb)]. *)
Definition eval_ldm_loops (emu mu z : list F) (ldps : list (list (list F)))
    (iis : list Z) (npv : nat) (st : ld_arrays) : ld_arrays :=
  fold_left
    (fun st ipv => fold_left (eval_ldm_body emu mu z ldps iis ipv) (seq 0 (length ldps)) st)
    (seq 0 npv) st.

Definition eval_ldm (emu mu z : list F) (ldps : list (list (list F)))
    (npv : nat) (nsamples : Z) (g : rng) : result ld_arrays * rng :=
  let npb := length ldps in
  let ldp := zeros3 npv npb (length emu) in
  let ldi := zeros2 npv npb in
  match randint_size 0 nsamples npv g with
  | (Raise e, g') => (Raise e, g')
  | (Ok iis, g') => (Ok (eval_ldm_loops emu mu z ldps iis npv (ldp, ldi)), g')
  end.

(** The body of the first loop of [eval_ldm_frozen]. *)
Definition eval_ldm_frozen_body (emu mu z : list F) (mldps : list (list F))
    (st : ld_arrays) (ipb : nat) : ld_arrays :=
  let p := getitem [] mldps ipb in
  (setitem2 st.1 0 ipb (interp emu mu p),
   setitem2 st.2 0 ipb (disk_coefficient z p)).

(** The body of its second loop: [ldp[i] = ldp[0]; ldi[i] = ldi[0]]. *)
Definition eval_ldm_frozen_copy (st : ld_arrays) (i : nat) : ld_arrays :=
  (<[i := getitem [] st.1 0]> st.1, <[i := getitem [] st.2 0]> st.2).

Definition eval_ldm_frozen (emu mu z : list F) (mldps : list (list F)) (npv : nat)
    : ld_arrays :=
  let npb := length mldps in
  let ldp := zeros3 npv npb (length emu) in
  let ldi := zeros2 npv npb in
  let st := fold_left (eval_ldm_frozen_body emu mu z mldps) (seq 0 npb) (ldp, ldi) in
  fold_left eval_ldm_frozen_copy (seq 1 (npv - 1)) st.

(** [numpy.linspace(start, stop, num)] for [num > 1] and distinct ends. *)
Definition linspace (start stop : Z) (num : nat) : list F :=
  let step := fdiv (fofZ (stop - start)) (fofZ (Z.of_nat (num - 1))) in
  <[num - 1 := fofZ stop]>
    (map (fun i => fadd (fmul (fofZ (Z.of_nat i)) step) (fofZ start)) (seq 0 num)).

(** [a.sum()] of numpy on a one-dimensional float array: pairwise
    summation.  Fewer than 8 elements are added from left to right, from
    [0.0]. *)
Definition sum_from (acc : F) (a : list F) : F := fold_left fadd a acc.

(** Up to 128 elements are added into 8 accumulators, element [i] into
    accumulator [i mod 8]; [add_chunks r a chunks] adds the next [chunks]
    blocks of 8 and returns the accumulators with the elements left. *)
Fixpoint add_chunks (r a : list F) (chunks : nat) : list F * list F :=
  match chunks with
  | 0 => (r, a)
  | S chunks' => add_chunks (zip_with fadd r (take 8 a)) (drop 8 a) chunks'
  end.

(** [((r0 + r1) + (r2 + r3)) + ((r4 + r5) + (r6 + r7))]. *)
Definition sum8 (r : list F) : F :=
  fadd (fadd (fadd (getitem fzero r 0) (getitem fzero r 1))
             (fadd (getitem fzero r 2) (getitem fzero r 3)))
       (fadd (fadd (getitem fzero r 4) (getitem fzero r 5))
             (fadd (getitem fzero r 6) (getitem fzero r 7))).

(** The accumulators are combined and the elements beyond the last full
    block of 8 are added one by one. *)
Definition sum_block (a : list F) : F :=
  let '(r, rest) := add_chunks (take 8 a) (drop 8 a) (length a / 8 - 1) in
  sum_from (sum8 r) rest.

(** More than 128 elements are split at [n2 = n / 2 - (n / 2) mod 8] and the
    two sums are added.  Every split shortens the array, so a fuel of its
    length is never used up. *)
Fixpoint pairwise_sum (fuel : nat) (a : list F) : F :=
  let n := length a in
  if n <? 8 then sum_from fzero a
  else if n <=? 128 then sum_block a
  else
    match fuel with
    | 0 => sum_from fzero a
    | S fuel' =>
        let n2 := n / 2 - (n / 2) mod 8 in
        fadd (pairwise_sum fuel' (take n2 a)) (pairwise_sum fuel' (drop n2 a))
    end.

(** The reduction starts from the identity [0.0] of the addition. *)
Definition np_sum (a : list F) : F := fadd fzero (pairwise_sum (length a) a).

(** [numpy.trapz(y, x)]: [(diff(x) * (y[1:] + y[:-1]) / 2.0).sum()]. *)
Definition np_trapz (y x : list F) : F :=
  let d := zip_with fsub (drop 1 x) x in
  let s := zip_with fadd (drop 1 y) y in
  np_sum (map (fun t => fdiv t (fofZ 2)) (zip_with fmul d s)).

End Kernels.

(** ** ldtkldm.py: the classes *)

(** The base class [LDModel]. *)
Module LDModel.
Section Class.
Context {F : Type} `{Arith F}.

Record t : Type := Build { _int_z : list F; _int_mu : list F }.

(** [__init__]: the grid [linspace(0, 1, 200)] and [sqrt(1 - z ** 2)] on it. *)
Definition __init__ : t :=
  let int_z := linspace 0 1 200 in
  {| _int_z := int_z;
     _int_mu := map (fun v => fsqrt (fsub (fofZ 1) (fmul v v))) int_z |}.

(** [__call__] of the base class. *)
Definition __call__ (self : t) (mu x : list F) : result (list F) :=
  Raise NotImplementedError.

(** [integrate]: [2 * pi * trapz(self._int_z * self(self._int_mu, x), self._int_z)].
    [self(...)] is the [__call__] of the class of the object, here [call]. *)
Definition integrate (call : t -> list F -> list F -> result (list F))
    (self : t) (x : list F) : result F :=
  match call self (_int_mu self) x with
  | Raise e => Raise e
  | Ok p =>
      Ok (fmul (fmul (fofZ 2) fpi)
               (np_trapz (arr_mul (_int_z self) p) (_int_z self)))
  end.

End Class.
Arguments t F : clear implicits.
End LDModel.

(** The subclass [LDTkLDModel]. *)
Module LDTkLDModel.
Section Class.
Context {F : Type} `{Arith F}.
Variable interp : list F -> list F -> list F -> list F.

(** What [LDPSetCreator.create_profiles] of LDTk hands over: the grids [_z]
    and [_mu], the sampled profiles [_ldps[passband][sample]] and their
    means [profile_averages[passband]]. *)
Record LDPSet : Type := {
  _z : list F;
  _mu : list F;
  _ldps : list (list (list F));
  profile_averages : list (list F)
}.

(** The attributes of an object ([_sc] and [_ps], the handles of LDTk, are
    read by no method). *)
Record t : Type := Build {
  base : LDModel.t F;
  _i : Z;
  npb : nat;
  nsamples : Z;
  frozen : bool;
  z : list F;
  mu : list F;
  profiles : list (list (list F));
  mean_profiles : list (list F)
}.

Definition __init__ (ps : LDPSet) (pbs : nat) (nsamples0 : Z) (frozen0 : bool) : t :=
  {| base := LDModel.__init__;
     _i := 0;
     npb := pbs;
     nsamples := nsamples0;
     frozen := frozen0;
     z := _z ps;
     mu := _mu ps;
     profiles := _ldps ps;
     mean_profiles := profile_averages ps |}.

(** [self._i = i]. *)
Definition set_i (self : t) (i : Z) : t :=
  {| base := base self;
     _i := i;
     npb := npb self;
     nsamples := nsamples self;
     frozen := frozen self;
     z := z self;
     mu := mu self;
     profiles := profiles self;
     mean_profiles := mean_profiles self |}.

(** [npv = 1 if x is None else x.shape[0]]. *)
Definition batch_size (x : option (list (list F))) : nat :=
  match x with None => 1 | Some xs => length xs end.

(** [__call__(self, mu, x)]: the result, the object and the generators after
    the call.  [x] is [None] or a batch of parameter vectors. *)
Definition __call__ (self : t) (emu : list F) (x : option (list (list F)))
    (w : world) : result (@ld_arrays F) * t * world :=
  let npv := batch_size x in
  match randint 0 (nsamples self) (np_rng w) with
  | (Raise e, g) => (Raise e, self, World g (nb_rng w))
  | (Ok i, g) =>
      let self := set_i self i in
      if frozen self
      then (Ok (eval_ldm_frozen interp emu (mu self) (z self) (mean_profiles self) npv),
            self, World g (nb_rng w))
      else
        let '(r, g') :=
          eval_ldm interp emu (mu self) (z self) (profiles self) npv (nsamples self)
                   (nb_rng w) in
        (r, self, World g g')
  end.

Definition integrate (self : t) (x : list F) : result F :=
  Raise NotImplementedError.

End Class.
Arguments t F : clear implicits.
Arguments LDPSet F : clear implicits.
End LDTkLDModel.

(** ** tesslpf.py: the time binner *)

Section Binner.
Context {F : Type} `{Float64 F}.

(** [a.max()] and [a.min()] of numba: a loop over the elements, NaN wins,
    [ValueError] on an empty array. *)
Definition max_step (m v : F) : F :=
  if fisnan m then m else if fisnan v then v else if fltb m v then v else m.

Definition min_step (m v : F) : F :=
  if fisnan m then m else if fisnan v then v else if fltb v m then v else m.

Definition array_max (a : list F) : result F :=
  match a with
  | [] => Raise ValueError
  | v :: a' => Ok (fold_left max_step a' v)
  end.

Definition array_min (a : list F) : result F :=
  match a with
  | [] => Raise ValueError
  | v :: a' => Ok (fold_left min_step a' v)
  end.

(** [a.mean()]: the running sum over the size. *)
Definition mean (a : list F) : F :=
  fdiv (fold_left fadd a fzero) (fofZ (Z.of_nat (length a))).

(** [a.std()]: the square root of the mean squared deviation from the mean. *)
Definition std (a : list F) : F :=
  let m := mean a in
  let ssd := fold_left (fun s v => fadd s (fmul (fsub v m) (fsub v m))) a fzero in
  fsqrt (fdiv ssd (fofZ (Z.of_nat (length a)))).

(** [arange(nbins)]: empty when [nbins] is not positive. *)
Definition arange (n : Z) : list Z := map Z.of_nat (seq 0 (Z.to_nat n)).

(** [digitize(x, bins)] for one [x] and non-decreasing [bins]: the index of
    the first edge above [x], the number of edges when there is none or [x]
    is NaN. *)
Fixpoint first_above (x : F) (bins : list F) : nat :=
  match bins with
  | [] => 0
  | b :: bins' => if fltb x b then 0 else S (first_above x bins')
  end.

Definition digitize_scalar (x : F) (bins : list F) : Z :=
  Z.of_nat (if fisnan x then length bins else first_above x bins).

Definition digitize (xs bins : list F) : list Z :=
  map (fun x => digitize_scalar x bins) xs.

(** [time[0] + bins * inttime]. *)
Definition bin_edges (time : list F) (inttime : F) (bins : list Z) : list F :=
  map (fun b => fadd (getitem fzero time 0) (fmul (fofZ b) inttime)) bins.

(** [bid == bids] and [bmask.sum()]. *)
Definition bin_mask (bid : Z) (bids : list Z) : list bool :=
  map (fun b => (bid =? b)%Z) bids.

Definition mask_sum (bmask : list bool) : nat :=
  length (filter (fun b => b = true) bmask).

(** The three arrays [bt], [bv], [be]. *)
Definition bin_arrays : Type := (list F * list F * list F)%type.

(** The body of the loop over [enumerate(bins)]. *)
Definition bin_body (time vals : list F) (bids : list Z) (st : bin_arrays)
    (ib : nat * Z) : bin_arrays :=
  let '(bt, bv, be) := st in
  let '(i, bid) := ib in
  let bmask := bin_mask bid bids in
  if 0 <? mask_sum bmask
  then
    (<[i := mean (select bmask time)]> bt,
     <[i := mean (select bmask vals)]> bv,
     <[i := if 2 <? mask_sum bmask
            then fdiv (std (select bmask vals))
                      (fsqrt (fofZ (Z.of_nat (mask_sum bmask))))
            else fnan]> be)
  else st.

(** [bids = digitize(time, edges) - 1] with [edges = time[0] + bins * inttime]. *)
Definition bin_ids (time : list F) (inttime : F) (nbins : Z) : list Z :=
  map (fun d => (d - 1)%Z) (digitize time (bin_edges time inttime (arange nbins))).

(** [nbins = int(ceil(duration / inttime))].  [time.max()] comes first and
    raises on an empty series; the division of code compiled by numba (its
    default error model is Python's) raises [ZeroDivisionError] on a zero
    divisor. *)
Definition bin_count (time : list F) (inttime : F) : result Z :=
  match array_max time with
  | Raise e => Raise e
  | Ok tmax =>
      match array_min time with
      | Raise e => Raise e
      | Ok tmin =>
          let duration := fsub tmax tmin in
          if feqb inttime fzero then Raise ZeroDivisionError
          else Ok (fceil_int (fdiv duration inttime))
      end
  end.

(** [downsample_time(time, vals, inttime)].  [full(nbins, nan)] raises
    [ValueError] on a negative [nbins]; [vals] is taken to be as long as
    [time]. *)
Definition downsample_time (time vals : list F) (inttime : F) : result bin_arrays :=
  match bin_count time inttime with
  | Raise e => Raise e
  | Ok nbins =>
      let bins := arange nbins in
      let bids := bin_ids time inttime nbins in
      if (nbins <? 0)%Z then Raise ValueError
      else
        let n := Z.to_nat nbins in
        let '(bt, bv, be) :=
          fold_left (bin_body time vals bids) (zip (seq 0 (length bins)) bins)
                    (replicate n fnan, replicate n fzero, replicate n fzero) in
        let m := map fisfinite be in
        Ok (select m bt, select m bv, select m be)
  end.

(** What the loop leaves in [bt[i]], [bv[i]] and [be[i]] for the bin [bid]:
    the initial values of the three arrays for an empty bin, the means and
    the error set by the body otherwise. *)
Definition bin_stat (time vals : list F) (bids : list Z) (bid : Z) : F * F * F :=
  let bmask := bin_mask bid bids in
  if 0 <? mask_sum bmask
  then (mean (select bmask time),
        mean (select bmask vals),
        if 2 <? mask_sum bmask
        then fdiv (std (select bmask vals)) (fsqrt (fofZ (Z.of_nat (mask_sum bmask))))
        else fnan)
  else (fnan, fzero, fzero).

(** The number of samples of each bin, in bin order. *)
Definition bin_sizes (time : list F) (inttime : F) (nbins : Z) : list nat :=
  map (fun bid => mask_sum (bin_mask bid (bin_ids time inttime nbins))) (arange nbins).

End Binner.


(** ** numpy.interp *)

Section Interp.
Context {F : Type} `{Float64 F}.

(** [numpy.interp(x, xp, fp)] for increasing [xp], as numpy documents it:
    the line through the two neighbours of [x], [fp[0]] below [xp[0]] and
    [fp[-1]] from [xp[-1]] on; a NaN [x] gives NaN.  The theorems hold for
    any interpolation routine; this one is what they are read with on
    binary64. *)
Fixpoint interp_scalar (x : F) (xp fp : list F) : F :=
  match xp, fp with
  | x0 :: xp', f0 :: fp' =>
      match xp', fp' with
      | x1 :: _, f1 :: _ =>
          if fltb x x1
          then fadd (fmul (fdiv (fsub f1 f0) (fsub x1 x0)) (fsub x x0)) f0
          else interp_scalar x xp' fp'
      | _, _ => f0
      end
  | _, _ => fzero
  end.

Definition np_interp (x xp fp : list F) : list F :=
  map (fun v => if fisnan v then v
                else if fltb v (getitem fzero xp 0) then getitem fzero fp 0
                else interp_scalar v xp fp) x.

End Interp.

(** ** Sample data on binary64 *)

(** A profile library of two passbands and two samples on a grid of three
    points. *)
Definition demo_ps : LDTkLDModel.LDPSet float :=
  {| LDTkLDModel._z := [1; 0.875; 0]%float;
     LDTkLDModel._mu := [0; 0.5; 1]%float;
     LDTkLDModel._ldps :=
       [[[0.25; 0.75; 1]; [0.5; 0.75; 1]];
        [[0.125; 0.5; 1]; [0.375; 0.5; 1]]]%float;
     LDTkLDModel.profile_averages :=
       [[0.375; 0.75; 1]; [0.25; 0.5; 1]]%float |}.

Definition demo_model (frozen : bool) : LDTkLDModel.t float :=
  LDTkLDModel.__init__ demo_ps 2 2 frozen.

(** Generators whose raw outcomes are 3, 10, 17, ... and 4, 9, 14, ... *)
Definition demo_world : world :=
  World (fun n => Z.of_nat (7 * n + 3)) (fun n => Z.of_nat (5 * n + 4)).

(** ** Notions of the specification *)

(** [a[i][j]] of a two-dimensional array, where it exists. *)
Definition cell2 {A : Type} (a : list (list A)) (i j : nat) : option A :=
  a !! i ≫= (.!! j).

(** An array of [n] rows of [m] entries. *)
Definition shape2 {A : Type} (n m : nat) (a : list (list A)) : Prop :=
  length a = n /\ Forall (fun row => length row = m) a.

(** Three parallel arrays from a list of triples. *)
Definition split3 {A : Type} (l : list (A * A * A)) : list A * list A * list A :=
  (map (fun s => s.1.1) l, map (fun s => s.1.2) l, map (fun s => s.2) l).

(** The terms the loop of [ntrapz] adds, in index order:
    [(x[i] - x[i-1]) * 0.5 * (y[i] + y[i-1])] for [i = 1 .. n-1]. *)
Fixpoint trapezoid_terms {F : Type} `{Arith F} (x y : list F) : list F :=
  match x, y with
  | x0 :: x', y0 :: y' =>
      match x', y' with
      | x1 :: _, y1 :: _ =>
          fmul (fmul (fsub x1 x0) fhalf) (fadd y1 y0) :: trapezoid_terms x' y'
      | _, _ => []
      end
  | _, _ => []
  end.

(** The trapezoidal rule as the specification writes it:
    [Σ (x[i] - x[i-1]) · (y[i] + y[i-1]) / 2] for [i = 1 .. n-1]. *)
Definition trapezoid_term (x y : list R) (i : nat) : R :=
  ((nth i x 0 - nth (i - 1) x 0) * (nth i y 0 + nth (i - 1) y 0) / 2)%R.

Definition trapezoid_sum (x y : list R) : R :=
  foldr Rplus 0%R (map (trapezoid_term x y) (seq 1 (length x - 1))).

(** The same sum by recursion over consecutive points. *)
Fixpoint trapezoid_rec (x y : list R) : R :=
  match x, y with
  | x0 :: x', y0 :: y' =>
      match x', y' with
      | x1 :: _, y1 :: _ => ((x1 - x0) * (y1 + y0) / 2 + trapezoid_rec x' y')%R
      | _, _ => 0%R
      end
  | _, _ => 0%R
  end.

(** * Properties *)

(** ** Lists and loops *)

Section LoopLemmas.
Context {St : Type}.

(** A loop over [range(a, a + n)] whose turn [i] establishes [P i] and
    leaves [P j] alone for [j <> i], under an invariant [Inv]. *)
Lemma fold_left_seq_inv (step : St -> nat -> St) (Inv : St -> Prop)
    (P : nat -> St -> Prop) (a n : nat) :
  (forall s i, a <= i < a + n -> Inv s -> Inv (step s i)) ->
  (forall s i, a <= i < a + n -> Inv s -> P i (step s i)) ->
  (forall s i j, a <= j < a + n -> i <> j -> Inv s -> P i s -> P i (step s j)) ->
  forall s, Inv s ->
    Inv (fold_left step (seq a n) s) /\
    forall i, a <= i < a + n -> P i (fold_left step (seq a n) s).
Proof.
  induction n as [|n IH]; intros Hinv Hset Hkeep s Hs.
  - split; [exact Hs | intros i Hi; lia].
  - rewrite seq_S, fold_left_app. simpl.
    destruct IH with (s := s) as [Hi1 Hi2]; try assumption.
    + intros s' i Hi. apply Hinv. lia.
    + intros s' i Hi. apply Hset. lia.
    + intros s' i j Hj. apply Hkeep. lia.
    + split.
      * apply Hinv; [lia | exact Hi1].
      * intros i Hi. destruct (decide (i = a + n)) as [->|Hne].
        -- apply Hset; [lia | exact Hi1].
        -- apply Hkeep; [lia | exact Hne | exact Hi1 | apply Hi2; lia].
Qed.

(** A property every turn preserves holds after the loop. *)
Lemma fold_left_preserves {B : Type} (step : St -> B -> St) (Q : St -> Prop) (l : list B) :
  (forall s b, Q s -> Q (step s b)) -> forall s, Q s -> Q (fold_left step l s).
Proof.
  intros Hstep. induction l as [|b l IH]; intros s Hs; simpl; [exact Hs|].
  apply IH, Hstep, Hs.
Qed.

(** Two loop bodies that agree on the elements visited give one result. *)
Lemma fold_left_ext_in {B : Type} (f g : St -> B -> St) (l : list B) :
  (forall s b, In b l -> f s b = g s b) ->
  forall s, fold_left f l s = fold_left g l s.
Proof.
  induction l as [|b l IH]; intros Hfg s; simpl; [reflexivity|].
  rewrite Hfg by (left; reflexivity). apply IH.
  intros s' b' Hb'. apply Hfg. right. exact Hb'.
Qed.

End LoopLemmas.

Lemma getitem_nth {A : Type} (d : A) (a : list A) (i : nat) :
  getitem d a i = nth i a d.
Proof. unfold getitem. symmetry. apply nth_lookup. Qed.

Lemma getitem_lookup {A : Type} (d : A) (a : list A) (i : nat) (v : A) :
  a !! i = Some v -> getitem d a i = v.
Proof. unfold getitem. intros ->. reflexivity. Qed.

Lemma last_cons {A : Type} (l : list A) (a d : A) :
  List.last (a :: l) d = List.last l a.
Proof.
  revert a d. induction l as [|b l IH]; intros a d; [reflexivity|].
  change (List.last (a :: b :: l) d) with (List.last (b :: l) d).
  rewrite (IH b d), (IH b a). reflexivity.
Qed.

(** ** The trapezoidal integrator *)

(** On fewer than two points the loop of [ntrapz] does not run. *)
Lemma ntrapz_short {F : Type} `{Arith F} (x y : list F) :
  length x <= 1 -> ntrapz x y = fzero.
Proof.
  intros Hlen. unfold ntrapz.
  replace (length x - 1) with 0 by lia. reflexivity.
Qed.

Lemma fold_left_seq_shift {A : Type} (f g : A -> nat -> A) (s n : nat) (a : A) :
  (forall b i, s <= i -> f b (S i) = g b i) ->
  fold_left f (seq (S s) n) a = fold_left g (seq s n) a.
Proof.
  revert s a. induction n as [|n IH]; intros s a Hfg; [reflexivity|].
  cbn [seq fold_left]. rewrite Hfg by lia. apply IH.
  intros b i Hi. apply Hfg. lia.
Qed.

Lemma ntrapz_step_shift {F : Type} `{Arith F} (x0 y0 : F) (x y : list F)
    (ii : F) (i : nat) :
  1 <= i -> ntrapz_step (x0 :: x) (y0 :: y) ii (S i) = ntrapz_step x y ii i.
Proof.
  intros Hi. unfold ntrapz_step.
  replace (S i - 1) with (S (i - 1)) by lia. reflexivity.
Qed.

(** On every carrier the loop of [ntrapz] adds the terms of consecutive
    points, from left to right, to the accumulator it starts from. *)
Lemma ntrapz_fold_terms {F : Type} `{Arith F} (x y : list F) (ii : F) :
  length x = length y ->
  fold_left (ntrapz_step x y) (seq 1 (length x - 1)) ii
  = fold_left fadd (trapezoid_terms x y) ii.
Proof.
  revert y ii. induction x as [|x0 x IH]; intros y ii Hlen.
  - reflexivity.
  - destruct y as [|y0 y]; [discriminate|].
    destruct x as [|x1 x]; [reflexivity|].
    destruct y as [|y1 y]; [discriminate|].
    replace (length (x0 :: x1 :: x) - 1) with (S (length (x1 :: x) - 1))
      by (simpl; lia).
    cbn [seq fold_left].
    rewrite (fold_left_seq_shift _ (ntrapz_step (x1 :: x) (y1 :: y)))
      by (intros b i Hi; apply ntrapz_step_shift; exact Hi).
    rewrite IH by (simpl in *; lia). reflexivity.
Qed.

(** ** The pairwise sum *)

(** Any fuel from the length of the array on gives one result: the sum never
    runs out of fuel. *)
Lemma pairwise_sum_fuel {F : Type} `{Arith F} (fuel fuel' : nat) (a : list F) :
  length a <= fuel -> length a <= fuel' ->
  pairwise_sum fuel a = pairwise_sum fuel' a.
Proof.
  revert fuel' a. induction fuel as [|fuel IH]; intros fuel' a Hf Hf'.
  - destruct a; [|simpl in Hf; lia]. destruct fuel'; reflexivity.
  - destruct fuel' as [|fuel'].
    { destruct a; [|simpl in Hf'; lia]. reflexivity. }
    cbn [pairwise_sum].
    destruct (Nat.ltb_spec (length a) 8) as [H8|H8]; [reflexivity|].
    destruct (Nat.leb_spec (length a) 128) as [H128|H128]; [reflexivity|].
    set (n2 := length a / 2 - (length a / 2) mod 8).
    assert (Hn2 : 0 < n2 < length a).
    { subst n2.
      pose proof (Nat.mod_upper_bound (length a / 2) 8 ltac:(lia)) as Hm.
      pose proof (Nat.Div0.mul_div_le (length a) 2) as Hd.
      pose proof (Nat.mul_succ_div_gt (length a) 2 ltac:(lia)) as Hu.
      lia. }
    rewrite (IH fuel' (take n2 a)), (IH fuel' (drop n2 a));
      rewrite ?length_take, ?length_drop; try lia.
    reflexivity.
Qed.

Section TrapezoidR.
Local Open Scope R_scope.

Lemma fold_left_Rplus (f : nat -> R) (l : list nat) (a : R) :
  fold_left (fun acc i => acc + f i) l a = a + foldr Rplus 0 (map f l).
Proof.
  revert a. induction l as [|i l IH]; intros a; simpl.
  - lra.
  - rewrite IH. lra.
Qed.

Lemma ntrapz_step_R (x y : list R) (ii : R) (i : nat) :
  ntrapz_step x y ii i = ii + trapezoid_term x y i.
Proof.
  unfold ntrapz_step, trapezoid_term. rewrite !getitem_nth. cbn. lra.
Qed.

(** The loop of [ntrapz] computes the indexed sum. *)
Lemma ntrapz_trapezoid_sum (x y : list R) : ntrapz x y = trapezoid_sum x y.
Proof.
  unfold ntrapz, trapezoid_sum.
  rewrite (fold_left_ext_in _ (fun acc i => acc + trapezoid_term x y i))
    by (intros; apply ntrapz_step_R).
  rewrite fold_left_Rplus. cbn. lra.
Qed.

Lemma trapezoid_term_shift (x0 y0 : R) (x y : list R) (i : nat) :
  (1 <= i)%nat ->
  trapezoid_term (x0 :: x) (y0 :: y) (S i) = trapezoid_term x y i.
Proof.
  intros Hi. unfold trapezoid_term.
  replace (S i - 1)%nat with (S (i - 1)) by lia.
  destruct i as [|i]; [lia|]. reflexivity.
Qed.

Lemma trapezoid_sum_cons (x0 x1 y0 y1 : R) (x y : list R) :
  trapezoid_sum (x0 :: x1 :: x) (y0 :: y1 :: y)
  = (x1 - x0) * (y1 + y0) / 2 + trapezoid_sum (x1 :: x) (y1 :: y).
Proof.
  unfold trapezoid_sum.
  replace (length (x0 :: x1 :: x) - 1)%nat with (S (length x)) by (simpl; lia).
  replace (length (x1 :: x) - 1)%nat with (length x) by (simpl; lia).
  rewrite <- cons_seq, <- seq_shift, map_cons, map_map.
  cbn [foldr]. f_equal. f_equal.
  apply map_ext_in. intros i Hi. apply in_seq in Hi.
  apply trapezoid_term_shift. lia.
Qed.

(** The indexed sum is the sum over consecutive points. *)
Lemma trapezoid_sum_rec (x y : list R) :
  length x = length y -> trapezoid_sum x y = trapezoid_rec x y.
Proof.
  revert y. induction x as [|x0 x IH]; intros y Hlen.
  - reflexivity.
  - destruct y as [|y0 y]; [discriminate|].
    destruct x as [|x1 x]; [reflexivity|].
    destruct y as [|y1 y]; [discriminate|].
    rewrite trapezoid_sum_cons, (IH (y1 :: y)) by (simpl in *; lia).
    reflexivity.
Qed.

End TrapezoidR.

Section DiskIntegralR.
Local Open Scope R_scope.

Lemma fold_left_Rplus_sum (l : list R) (a : R) :
  fold_left Rplus l a = a + foldr Rplus 0 l.
Proof.
  revert a. induction l as [|v l IH]; intros a; simpl.
  - lra.
  - rewrite IH. lra.
Qed.

Lemma foldr_Rplus_app (a b : list R) :
  foldr Rplus 0 (a ++ b) = foldr Rplus 0 a + foldr Rplus 0 b.
Proof. induction a as [|v a IH]; simpl; [lra | rewrite IH; lra]. Qed.

Lemma foldr_Rplus_zip (r c : list R) :
  length r = length c ->
  foldr Rplus 0 (zip_with Rplus r c) = foldr Rplus 0 r + foldr Rplus 0 c.
Proof.
  revert c. induction r as [|v r IH]; intros [|w c] Hlen; try discriminate.
  - simpl. lra.
  - simpl. rewrite IH by (simpl in Hlen; lia). lra.
Qed.

Lemma sum8_R (r : list R) : length r = 8%nat -> sum8 r = foldr Rplus 0 r.
Proof.
  intros Hlen.
  do 8 (destruct r as [|? r]; [discriminate|]).
  destruct r; [|discriminate].
  unfold sum8, getitem. cbn. lra.
Qed.

Lemma add_chunks_R (chunks : nat) (r a : list R) :
  length r = 8%nat -> (8 * chunks <= length a)%nat ->
  length (add_chunks r a chunks).1 = 8%nat /\
  foldr Rplus 0 (add_chunks r a chunks).1 + foldr Rplus 0 (add_chunks r a chunks).2
  = foldr Rplus 0 r + foldr Rplus 0 a.
Proof.
  revert r a. induction chunks as [|chunks IH]; intros r a Hr Ha.
  - split; [exact Hr | reflexivity].
  - cbn [add_chunks].
    assert (Ht : length (take 8 a) = 8%nat) by (rewrite length_take; lia).
    destruct (IH (zip_with Rplus r (take 8 a)) (drop 8 a)) as [L E].
    + rewrite length_zip_with; lia.
    + rewrite length_drop; lia.
    + split; [exact L|].
      change (@fadd R R_arith) with Rplus. rewrite E.
      rewrite foldr_Rplus_zip by lia.
      rewrite <- (take_drop 8 a) at 3. rewrite foldr_Rplus_app. lra.
Qed.

Lemma sum_block_R (a : list R) :
  (8 <= length a)%nat -> sum_block a = foldr Rplus 0 a.
Proof.
  intros Hlen. unfold sum_block.
  pose proof (Nat.Div0.mul_div_le (length a) 8) as Hdiv.
  destruct (add_chunks_R (length a / 8 - 1) (take 8 a) (drop 8 a)) as [L E].
  - rewrite length_take; lia.
  - rewrite length_drop; lia.
  - destruct (add_chunks (take 8 a) (drop 8 a) (length a / 8 - 1)) as [r rest].
    cbn [fst snd] in *. unfold sum_from.
    change (@fadd R R_arith) with Rplus.
    rewrite fold_left_Rplus_sum, (sum8_R r L), E.
    rewrite <- (take_drop 8 a) at 3. rewrite foldr_Rplus_app. reflexivity.
Qed.

Lemma sum_from_R (acc : R) (a : list R) : sum_from acc a = acc + foldr Rplus 0 a.
Proof. unfold sum_from. apply fold_left_Rplus_sum. Qed.

(** The fuel is enough: a fuel of the length of the array gives the sum. *)
Lemma pairwise_sum_R (fuel : nat) (a : list R) :
  (length a <= fuel)%nat -> pairwise_sum fuel a = foldr Rplus 0 a.
Proof.
  revert a. induction fuel as [|fuel IH]; intros a Hlen.
  - destruct a; [|simpl in Hlen; lia]. cbn. lra.
  - cbn [pairwise_sum].
    destruct (Nat.ltb_spec (length a) 8) as [H8|H8].
    { rewrite sum_from_R. cbn [fzero R_arith]. lra. }
    destruct (Nat.leb_spec (length a) 128) as [H128|H128].
    { apply sum_block_R. exact H8. }
    set (n2 := (length a / 2 - (length a / 2) mod 8)%nat).
    assert (Hn2 : (0 < n2 < length a)%nat).
    { subst n2.
      pose proof (Nat.mod_upper_bound (length a / 2) 8 ltac:(lia)) as Hm.
      pose proof (Nat.Div0.mul_div_le (length a) 2) as Hd.
      pose proof (Nat.mul_succ_div_gt (length a) 2 ltac:(lia)) as Hu.
      lia. }
    rewrite !IH.
    + change (@fadd R R_arith) with Rplus.
      rewrite <- (take_drop n2 a) at 3. rewrite foldr_Rplus_app. reflexivity.
    + rewrite length_drop. lia.
    + rewrite length_take. lia.
Qed.

(** Over the real numbers the pairwise sum is the sum. *)
Lemma np_sum_R (a : list R) : np_sum a = foldr Rplus 0 a.
Proof.
  unfold np_sum. rewrite pairwise_sum_R by lia. cbn [fadd fzero R_arith]. lra.
Qed.

(** [numpy.trapz(y, x)] is the same sum over consecutive points. *)
Lemma np_trapz_rec (y x : list R) : np_trapz y x = trapezoid_rec x y.
Proof.
  unfold np_trapz. rewrite np_sum_R.
  revert y. induction x as [|x0 x IH]; intros y; [reflexivity|].
  destruct x as [|x1 x]; [destruct y; reflexivity|].
  destruct y as [|y0 y]; [reflexivity|].
  destruct y as [|y1 y]; [reflexivity|].
  specialize (IH (y1 :: y)).
  change (trapezoid_rec (x0 :: x1 :: x) (y0 :: y1 :: y))
    with ((x1 - x0) * (y1 + y0) / 2 + trapezoid_rec (x1 :: x) (y1 :: y)).
  rewrite <- IH. reflexivity.
Qed.

(** A unit profile leaves the grid as it is. *)
Lemma arr_mul_ones (z : list R) : arr_mul z (replicate (length z) 1) = z.
Proof.
  unfold arr_mul. induction z as [|z0 z IH]; [reflexivity|].
  cbn. rewrite Rmult_1_r. f_equal. exact IH.
Qed.

(** The trapezoids under the identity telescope. *)
Lemma trapezoid_rec_identity (z0 : R) (z : list R) :
  trapezoid_rec (z0 :: z) (z0 :: z) = (List.last z z0 * List.last z z0 - z0 * z0) / 2.
Proof.
  revert z0. induction z as [|z1 z IH]; intros z0.
  - simpl. lra.
  - change (trapezoid_rec (z0 :: z1 :: z) (z0 :: z1 :: z))
      with ((z1 - z0) * (z1 + z0) / 2 + trapezoid_rec (z1 :: z) (z1 :: z)).
    rewrite IH.
    rewrite (last_cons z z1 z0). lra.
Qed.

(** On a grid that increases from a non-negative point, the trapezoids under
    [z * p] for a positive profile [p] are non-negative, and positive once
    there are two points. *)
Lemma trapezoid_rec_nonneg (z0 : R) (z p : list R) (p0 : R) :
  0 <= z0 -> Sorted Rlt (z0 :: z) -> Forall (Rlt 0) (p0 :: p) ->
  length p = length z ->
  0 <= trapezoid_rec (z0 :: z) (arr_mul (z0 :: z) (p0 :: p)).
Proof.
  revert z0 p p0. induction z as [|z1 z IH]; intros z0 p p0 Hz0 Hs Hp Hlen.
  - simpl. lra.
  - destruct p as [|p1 p]; [discriminate|].
    apply Sorted_inv in Hs as [Hs Hhd]. apply HdRel_inv in Hhd.
    apply Forall_cons in Hp as [Hp0 Hp].
    pose proof Hp as Hp'. apply Forall_cons in Hp' as [Hp1 _].
    specialize (IH z1 p p1 ltac:(lra) Hs Hp ltac:(simpl in Hlen; lia)).
    change (trapezoid_rec (z0 :: z1 :: z) (arr_mul (z0 :: z1 :: z) (p0 :: p1 :: p)))
      with ((z1 - z0) * (z1 * p1 + z0 * p0) / 2
            + trapezoid_rec (z1 :: z) (arr_mul (z1 :: z) (p1 :: p))).
    assert (0 < z1 * p1) by (apply Rmult_lt_0_compat; lra).
    assert (0 <= z0 * p0) by (apply Rmult_le_pos; lra).
    assert (0 <= (z1 - z0) * (z1 * p1 + z0 * p0)) by (apply Rmult_le_pos; lra).
    lra.
Qed.

Lemma trapezoid_rec_pos (z0 z1 : R) (z p : list R) (p0 p1 : R) :
  0 <= z0 -> Sorted Rlt (z0 :: z1 :: z) -> Forall (Rlt 0) (p0 :: p1 :: p) ->
  length p = length z ->
  0 < trapezoid_rec (z0 :: z1 :: z) (arr_mul (z0 :: z1 :: z) (p0 :: p1 :: p)).
Proof.
  intros Hz0 Hs Hp Hlen.
  apply Sorted_inv in Hs as [Hs Hhd]. apply HdRel_inv in Hhd.
  apply Forall_cons in Hp as [Hp0 Hp].
  pose proof Hp as Hp'. apply Forall_cons in Hp' as [Hp1 _].
  pose proof (trapezoid_rec_nonneg z1 z p p1 ltac:(lra) Hs Hp Hlen) as Hrest.
  change (trapezoid_rec (z0 :: z1 :: z) (arr_mul (z0 :: z1 :: z) (p0 :: p1 :: p)))
    with ((z1 - z0) * (z1 * p1 + z0 * p0) / 2
          + trapezoid_rec (z1 :: z) (arr_mul (z1 :: z) (p1 :: p))).
  assert (0 < z1 * p1) by (apply Rmult_lt_0_compat; lra).
  assert (0 <= z0 * p0) by (apply Rmult_le_pos; lra).
  assert (0 < (z1 - z0) * (z1 * p1 + z0 * p0)) by (apply Rmult_lt_0_compat; lra).
  lra.
Qed.

(** The sampled model's coefficient is minus [2π] times the trapezoidal sum. *)
Lemma disk_coefficient_R (z p : list R) :
  disk_coefficient z p = - (2 * PI * trapezoid_sum z (arr_mul z p)).
Proof.
  unfold disk_coefficient. rewrite ntrapz_trapezoid_sum. cbn. ring.
Qed.

End DiskIntegralR.

(** ** Two-dimensional arrays *)

Section Arrays2.
Context {A : Type}.
Implicit Types (a : list (list A)) (v : A).

Lemma shape2_replicate (n m : nat) (v : A) : shape2 n m (replicate n (replicate m v)).
Proof.
  split; [apply length_replicate|].
  apply Forall_replicate, length_replicate.
Qed.

Lemma setitem2_shape (n m : nat) a (i j : nat) v :
  shape2 n m a -> shape2 n m (setitem2 a i j v).
Proof.
  intros [Hn Hm]. unfold setitem2. split.
  - rewrite length_alter. exact Hn.
  - apply Forall_alter; [exact Hm|].
    intros row _ Hrow. rewrite length_insert. exact Hrow.
Qed.

Lemma cell2_setitem2_eq (n m : nat) a (i j : nat) v :
  shape2 n m a -> i < n -> j < m -> cell2 (setitem2 a i j v) i j = Some v.
Proof.
  intros [Hn Hm] Hi Hj. unfold cell2, setitem2.
  destruct (lookup_lt_is_Some_2 a i ltac:(lia)) as [row Hrow].
  rewrite list_lookup_alter_eq, Hrow. simpl.
  apply list_lookup_insert_eq.
  rewrite Forall_lookup in Hm. rewrite (Hm _ _ Hrow). exact Hj.
Qed.

Lemma cell2_setitem2_ne a (i j i' j' : nat) v :
  i <> i' \/ j <> j' -> cell2 (setitem2 a i j v) i' j' = cell2 a i' j'.
Proof.
  intros Hne. unfold cell2, setitem2.
  destruct (decide (i = i')) as [<-|Hi].
  - rewrite list_lookup_alter_eq. destruct (a !! i) as [row|]; simpl; [|reflexivity].
    apply list_lookup_insert_ne. destruct Hne; congruence.
  - rewrite list_lookup_alter_ne by exact Hi. reflexivity.
Qed.

End Arrays2.

Lemma lookup_map {A B : Type} (f : A -> B) (l : list A) (i : nat) :
  map f l !! i = f <$> (l !! i).
Proof. exact (list_lookup_fmap f l i). Qed.

(** ** The loops of the limb-darkening kernels *)

Section KernelFacts.
Context {F : Type} `{Arith F}.
Variable interp : list F -> list F -> list F -> list F.
Variables emu mu z : list F.

(** After the loops of [eval_ldm], the entry of row [ipv] and passband [ipb]
    of both arrays comes from the profile [ldps[ipb, iis[ipv]]]. *)
Lemma eval_ldm_loops_cells (ldps : list (list (list F))) (iis : list Z) (npv : nat) :
  let npb := length ldps in
  let r := eval_ldm_loops interp emu mu z ldps iis npv
             (zeros3 npv npb (length emu), zeros2 npv npb) in
  shape2 npv npb r.1 /\ shape2 npv npb r.2 /\
  forall ipv ipb, ipv < npv -> ipb < npb ->
    cell2 r.1 ipv ipb
      = Some (interp emu mu (profile_at ldps ipb (getitem 0%Z iis ipv))) /\
    cell2 r.2 ipv ipb
      = Some (disk_coefficient z (profile_at ldps ipb (getitem 0%Z iis ipv))).
Proof.
  intros npb r.
  set (Inv := fun st : @ld_arrays F => shape2 npv npb st.1 /\ shape2 npv npb st.2).
  set (cellP := fun (ipv ipb : nat) (st : @ld_arrays F) =>
    cell2 st.1 ipv ipb
      = Some (interp emu mu (profile_at ldps ipb (getitem 0%Z iis ipv))) /\
    cell2 st.2 ipv ipb
      = Some (disk_coefficient z (profile_at ldps ipb (getitem 0%Z iis ipv)))).
  set (inner := fun (st : @ld_arrays F) ipv =>
    fold_left (eval_ldm_body interp emu mu z ldps iis ipv) (seq 0 npb) st).
  assert (Hinner : forall ipv st, ipv < npv -> Inv st ->
            Inv (inner st ipv) /\ forall ipb, 0 <= ipb < 0 + npb -> cellP ipv ipb (inner st ipv)).
  { intros ipv st Hipv Hst. apply fold_left_seq_inv; [| | |exact Hst].
    - intros s i _ [H1 H2]. split; apply setitem2_shape; assumption.
    - intros s i Hi [H1 H2]. split; cbn [eval_ldm_body fst snd];
        eapply cell2_setitem2_eq; eauto; lia.
    - intros s i j _ Hij _ [H1 H2]. split; cbn [eval_ldm_body fst snd];
        (rewrite cell2_setitem2_ne; [assumption | right; congruence]). }
  assert (Hother : forall ipv st i j, i <> ipv ->
            cell2 (inner st ipv).1 i j = cell2 st.1 i j /\
            cell2 (inner st ipv).2 i j = cell2 st.2 i j).
  { intros ipv st i j Hne.
    apply (fold_left_preserves (eval_ldm_body interp emu mu z ldps iis ipv)
             (fun s => cell2 s.1 i j = cell2 st.1 i j /\ cell2 s.2 i j = cell2 st.2 i j));
      [|split; reflexivity].
    intros s b [H1 H2]. cbn [eval_ldm_body fst snd].
    rewrite !cell2_setitem2_ne by (left; congruence). split; assumption. }
  assert (Houter : Inv r /\ forall ipv, 0 <= ipv < 0 + npv ->
            forall ipb, ipb < npb -> cellP ipv ipb r).
  { apply (fold_left_seq_inv inner Inv
             (fun ipv st => forall ipb, ipb < npb -> cellP ipv ipb st)).
    - intros s i Hi Hs. apply Hinner; [lia | exact Hs].
    - intros s i Hi Hs ipb Hipb. apply Hinner; [lia | exact Hs | lia].
    - intros s i j Hj Hij Hs HP ipb Hipb.
      destruct (Hother j s i ipb Hij) as [E1 E2].
      destruct (HP ipb Hipb) as [P1 P2].
      split; [rewrite E1; exact P1 | rewrite E2; exact P2].
    - split; apply shape2_replicate. }
  destruct Houter as [[S1 S2] Hcells].
  split; [exact S1|]. split; [exact S2|].
  intros ipv ipb Hipv Hipb. apply Hcells; [lia | exact Hipb].
Qed.

(** A row whose entries are known is the image of the profiles. *)
Lemma row_is_map {B : Type} (f : list F -> B) (ps : list (list F)) (row : list B) :
  length row = length ps ->
  (forall j, j < length ps -> row !! j = Some (f (getitem [] ps j))) ->
  row = map f ps.
Proof.
  intros Hlen Hrow. apply list_eq_same_length with (length ps);
    [apply length_map | exact Hlen |].
  intros j x y Hj Hx Hy. rewrite (Hrow j Hj) in Hx.
  rewrite lookup_map in Hy.
  destruct (lookup_lt_is_Some_2 ps j Hj) as [p Hp].
  rewrite Hp in Hy. rewrite (getitem_lookup [] ps j p Hp) in Hx.
  simpl in Hy. congruence.
Qed.

(** [eval_ldm_frozen] in closed form: every row is the row of the mean
    profiles. *)
Lemma eval_ldm_frozen_closed (mldps : list (list F)) (npv : nat) :
  eval_ldm_frozen interp emu mu z mldps npv
  = (replicate npv (map (interp emu mu) mldps),
     replicate npv (map (disk_coefficient z) mldps)).
Proof.
  unfold eval_ldm_frozen. set (npb := length mldps).
  destruct npv as [|n].
  - assert (E : fold_left (eval_ldm_frozen_body interp emu mu z mldps) (seq 0 npb)
                  (zeros3 0 npb (length emu), zeros2 0 npb) = ([], [])).
    { apply (fold_left_preserves _ (fun s => s = ([], []))); [|reflexivity].
      intros s b ->. reflexivity. }
    rewrite E. reflexivity.
  - set (st1 := fold_left _ (seq 0 npb) _).
    assert (H1 : (shape2 (S n) npb st1.1 /\ shape2 (S n) npb st1.2) /\
              forall ipb, 0 <= ipb < 0 + npb ->
                cell2 st1.1 0 ipb = Some (interp emu mu (getitem [] mldps ipb)) /\
                cell2 st1.2 0 ipb = Some (disk_coefficient z (getitem [] mldps ipb))).
    { apply (fold_left_seq_inv (eval_ldm_frozen_body interp emu mu z mldps)
               (fun s => shape2 (S n) npb s.1 /\ shape2 (S n) npb s.2)
               (fun ipb s =>
                  cell2 s.1 0 ipb = Some (interp emu mu (getitem [] mldps ipb)) /\
                  cell2 s.2 0 ipb = Some (disk_coefficient z (getitem [] mldps ipb)))).
      - intros s i _ [Ha Hb]. split; apply setitem2_shape; assumption.
      - intros s i Hi [Ha Hb]. split; cbn [eval_ldm_frozen_body fst snd];
          eapply cell2_setitem2_eq; eauto; lia.
      - intros s i j _ Hij _ [Ha Hb]. split; cbn [eval_ldm_frozen_body fst snd];
          (rewrite cell2_setitem2_ne; [assumption | right; congruence]).
      - split; apply shape2_replicate. }
    destruct H1 as [[[Ln1 Lm1] [Ln2 Lm2]] Hcells].
    destruct (lookup_lt_is_Some_2 st1.1 0 ltac:(lia)) as [r1 Hr1].
    destruct (lookup_lt_is_Some_2 st1.2 0 ltac:(lia)) as [r2 Hr2].
    rewrite Forall_lookup in Lm1. rewrite Forall_lookup in Lm2.
    assert (E1 : r1 = map (interp emu mu) mldps).
    { apply row_is_map; [exact (Lm1 _ _ Hr1)|].
      intros j Hj. destruct (Hcells j ltac:(lia)) as [C _].
      unfold cell2 in C. rewrite Hr1 in C. exact C. }
    assert (E2 : r2 = map (disk_coefficient z) mldps).
    { apply row_is_map; [exact (Lm2 _ _ Hr2)|].
      intros j Hj. destruct (Hcells j ltac:(lia)) as [_ C].
      unfold cell2 in C. rewrite Hr2 in C. exact C. }
    subst r1 r2. replace (S n - 1) with n by lia.
    set (row1 := map (interp emu mu) mldps) in *.
    set (row2 := map (disk_coefficient z) mldps) in *.
    set (st2 := fold_left eval_ldm_frozen_copy (seq 1 n) st1).
    assert (H2 : (st2.1 !! 0 = Some row1 /\ st2.2 !! 0 = Some row2 /\
                  length st2.1 = S n /\ length st2.2 = S n) /\
              forall i, 1 <= i < 1 + n ->
                st2.1 !! i = Some row1 /\ st2.2 !! i = Some row2).
    { apply (fold_left_seq_inv eval_ldm_frozen_copy
               (fun s => s.1 !! 0 = Some row1 /\ s.2 !! 0 = Some row2 /\
                         length s.1 = S n /\ length s.2 = S n)
               (fun i s => s.1 !! i = Some row1 /\ s.2 !! i = Some row2)).
      - intros s i Hi (Ha & Hb & La & Lb). cbn [eval_ldm_frozen_copy fst snd].
        rewrite !length_insert, !list_lookup_insert_ne by lia. auto.
      - intros s i Hi (Ha & Hb & La & Lb). cbn [eval_ldm_frozen_copy fst snd].
        rewrite (getitem_lookup [] s.1 0 row1 Ha), (getitem_lookup [] s.2 0 row2 Hb).
        split; apply list_lookup_insert_eq; lia.
      - intros s i j Hj Hij _ [Ha Hb]. cbn [eval_ldm_frozen_copy fst snd].
        rewrite !list_lookup_insert_ne by congruence. auto.
      - auto. }
    destruct H2 as [(Z1 & Z2 & L1 & L2) Hrows].
    rewrite (surjective_pairing st2). f_equal.
    + apply list_eq_same_length with (S n); [apply length_replicate | exact L1 |].
      intros i x y Hi Hx Hy. apply lookup_replicate in Hy as [-> _].
      destruct i as [|i]; [congruence|].
      destruct (Hrows (S i) ltac:(lia)) as [E _]. congruence.
    + apply list_eq_same_length with (S n); [apply length_replicate | exact L2 |].
      intros i x y Hi Hx Hy. apply lookup_replicate in Hy as [-> _].
      destruct i as [|i]; [congruence|].
      destruct (Hrows (S i) ltac:(lia)) as [_ E]. congruence.
Qed.

End KernelFacts.

(** ** Random draws *)

Lemma randint_ok (low high : Z) (g : rng) :
  (low < high)%Z ->
  exists i, randint low high g = (Ok i, rng_next g) /\ (low <= i < high)%Z.
Proof.
  intros Hlt. unfold randint.
  destruct (Z.ltb_spec low high) as [_|Hge]; [|lia].
  eexists. split; [reflexivity|].
  pose proof (Z.mod_pos_bound (g O) (high - low) ltac:(lia)). lia.
Qed.

Lemma randint_size_ok (low high : Z) (size : nat) (g : rng) :
  (low < high)%Z ->
  exists iis g', randint_size low high size g = (Ok iis, g') /\
    length iis = size /\ Forall (fun v => (low <= v < high)%Z) iis.
Proof.
  intros Hlt. revert g. induction size as [|size IH]; intros g.
  - exists [], g. split; [reflexivity|]. split; [reflexivity | constructor].
  - destruct (randint_ok low high g Hlt) as (i & Ei & Hi).
    destruct (IH (rng_next g)) as (vs & g' & Evs & Hlen & Hrange).
    exists (i :: vs), g'. cbn [randint_size]. rewrite Ei, Evs.
    split; [reflexivity|]. split; [simpl; lia|]. constructor; assumption.
Qed.

(** On an empty range the first draw raises and takes nothing. *)
Lemma randint_size_empty_range (low high : Z) (size : nat) (g : rng) :
  (high <= low)%Z -> 0 < size ->
  randint_size low high size g = (Raise ValueError, g).
Proof.
  intros Hle Hsize. destruct size as [|size]; [lia|].
  cbn [randint_size]. unfold randint.
  destruct (Z.ltb_spec low high) as [Hlt|_]; [lia|]. reflexivity.
Qed.

(** The generator after [size] draws is the generator [size] outcomes on. *)
Lemma randint_size_advance (low high : Z) (size : nat) (g : rng) (n : nat) :
  (low < high)%Z -> (randint_size low high size g).2 n = g (size + n).
Proof.
  intros Hlt. revert g. induction size as [|size IH]; intros g; [reflexivity|].
  destruct (randint_ok low high g Hlt) as (i & Ei & _).
  destruct (randint_size_ok low high size (rng_next g) Hlt) as (vs & g' & Evs & _).
  specialize (IH (rng_next g)). cbn [randint_size]. rewrite Ei, Evs in *.
  cbn [snd] in *. rewrite IH. unfold rng_next. reflexivity.
Qed.

(** ** The sampled model *)

Section SampledModel.
Context {F : Type} `{Arith F}.
Variable interp : list F -> list F -> list F -> list F.
Implicit Types (self : LDTkLDModel.t F) (emu : list F) (x : option (list (list F))).

(** With a non-empty sample range [eval_ldm] returns, and every row is
    computed from the profile with the index drawn for that row. *)
Lemma eval_ldm_ok (emu mu z : list F) (ldps : list (list (list F))) (npv : nat)
    (nsamples : Z) (g : rng) :
  (0 < nsamples)%Z ->
  exists (iis : list Z) (ldp : list (list (list F))) (ldi : list (list F)) (g' : rng),
    randint_size 0 nsamples npv g = (Ok iis, g') /\
    eval_ldm interp emu mu z ldps npv nsamples g = (Ok (ldp, ldi), g') /\
    length iis = npv /\
    shape2 npv (length ldps) ldp /\ shape2 npv (length ldps) ldi /\
    forall ipv, ipv < npv ->
      exists k, iis !! ipv = Some k /\ (0 <= k < nsamples)%Z /\
        forall ipb, ipb < length ldps ->
          cell2 ldp ipv ipb = Some (interp emu mu (profile_at ldps ipb k)) /\
          cell2 ldi ipv ipb = Some (disk_coefficient z (profile_at ldps ipb k)).
Proof.
  intros Hpos.
  destruct (randint_size_ok 0 nsamples npv g Hpos) as (iis & g' & Hr & Hlen & Hrange).
  pose proof (eval_ldm_loops_cells interp emu mu z ldps iis npv) as Hloops.
  cbv zeta in Hloops.
  destruct (eval_ldm_loops interp emu mu z ldps iis npv
              (zeros3 npv (length ldps) (length emu), zeros2 npv (length ldps)))
    as [ldp ldi] eqn:E.
  destruct Hloops as (S1 & S2 & Hcells).
  exists iis, ldp, ldi, g'. split; [exact Hr|]. split.
  { unfold eval_ldm. rewrite Hr, E. reflexivity. }
  split; [exact Hlen|]. split; [exact S1|]. split; [exact S2|].
  intros ipv Hipv.
  destruct (lookup_lt_is_Some_2 iis ipv ltac:(lia)) as [k Hk].
  exists k. split; [exact Hk|]. split.
  { rewrite Forall_lookup in Hrange. exact (Hrange _ _ Hk). }
  intros ipb Hipb. rewrite <- (getitem_lookup 0%Z iis ipv k Hk).
  apply Hcells; assumption.
Qed.

(** The result of [__call__] in frozen mode. *)
Lemma call_frozen self emu x (w : world) :
  LDTkLDModel.frozen self = true ->
  (LDTkLDModel.__call__ interp self emu x w).1.1
  = if (0 <? LDTkLDModel.nsamples self)%Z
    then Ok (replicate (LDTkLDModel.batch_size x)
               (map (interp emu (LDTkLDModel.mu self)) (LDTkLDModel.mean_profiles self)),
             replicate (LDTkLDModel.batch_size x)
               (map (disk_coefficient (LDTkLDModel.z self)) (LDTkLDModel.mean_profiles self)))
    else Raise ValueError.
Proof.
  intros Hfrozen. unfold LDTkLDModel.__call__, randint.
  destruct (0 <? LDTkLDModel.nsamples self)%Z; [|reflexivity].
  cbn [LDTkLDModel.set_i LDTkLDModel.frozen LDTkLDModel.mu LDTkLDModel.z
       LDTkLDModel.mean_profiles].
  rewrite Hfrozen. cbn [fst]. rewrite eval_ldm_frozen_closed. reflexivity.
Qed.

(** The result of [__call__] outside frozen mode is that of [eval_ldm] on the
    generator of the compiled code. *)
Lemma call_sampled self emu x (w : world) :
  LDTkLDModel.frozen self = false -> (0 < LDTkLDModel.nsamples self)%Z ->
  (LDTkLDModel.__call__ interp self emu x w).1.1
  = (eval_ldm interp emu (LDTkLDModel.mu self) (LDTkLDModel.z self)
       (LDTkLDModel.profiles self) (LDTkLDModel.batch_size x)
       (LDTkLDModel.nsamples self) (nb_rng w)).1.
Proof.
  intros Hfrozen Hpos. unfold LDTkLDModel.__call__, randint.
  destruct (Z.ltb_spec 0 (LDTkLDModel.nsamples self)) as [_|Hge]; [|lia].
  cbn [LDTkLDModel.set_i LDTkLDModel.frozen LDTkLDModel.mu LDTkLDModel.z
       LDTkLDModel.profiles LDTkLDModel.nsamples].
  rewrite Hfrozen.
  destruct (eval_ldm _ _ _ _ _ _ _ _) as [r g']. reflexivity.
Qed.

(** The stored last draw is read by no path of [__call__]. *)
Lemma call_ignores_i self emu x (w : world) (i0 : Z) :
  (LDTkLDModel.__call__ interp (LDTkLDModel.set_i self i0) emu x w).1.1
  = (LDTkLDModel.__call__ interp self emu x w).1.1.
Proof.
  unfold LDTkLDModel.__call__.
  cbn [LDTkLDModel.set_i LDTkLDModel.frozen LDTkLDModel.mu LDTkLDModel.z
       LDTkLDModel.profiles LDTkLDModel.mean_profiles LDTkLDModel.nsamples].
  destruct (randint 0 (LDTkLDModel.nsamples self) (np_rng w)) as [[i|e] g];
    [|reflexivity].
  destruct (LDTkLDModel.frozen self); [reflexivity|].
  destruct (eval_ldm _ _ _ _ _ _ _ _) as [r g']. reflexivity.
Qed.

(** What a call does to the object. *)
Lemma call_object self emu x (w : world) :
  (LDTkLDModel.__call__ interp self emu x w).1.2
  = match (randint 0 (LDTkLDModel.nsamples self) (np_rng w)).1 with
    | Ok i => LDTkLDModel.set_i self i
    | Raise _ => self
    end.
Proof.
  unfold LDTkLDModel.__call__.
  destruct (randint 0 (LDTkLDModel.nsamples self) (np_rng w)) as [[i|e] g];
    [|reflexivity].
  cbn [LDTkLDModel.set_i LDTkLDModel.frozen fst].
  destruct (LDTkLDModel.frozen self); [reflexivity|].
  destruct (eval_ldm _ _ _ _ _ _ _ _) as [r g']. reflexivity.
Qed.

End SampledModel.

(** ** Claims on the limb-darkening models *)

(** C6.  [LDTkLDModel.integrate] raises [NotImplementedError] for every
    object and every parameter vector.  The batch path is another matter:
    with a non-empty sample range [__call__] returns its arrays.  The
    [integrate] of the base class is the working one: given a [__call__] that
    returns a profile [p] on the grid, it returns
    [2 * pi * trapz(_int_z * p, _int_z)]; with the [__call__] of the base
    class itself, which is not implemented, it raises as well. *)
Theorem ldtk_integrate_not_supported {F : Type} `{Arith F}
    (interp : list F -> list F -> list F -> list F)
    (self : LDTkLDModel.t F) (x : list F) :
  LDTkLDModel.integrate self x = Raise NotImplementedError /\
  (forall emu xs w, (0 < LDTkLDModel.nsamples self)%Z ->
     is_ok (LDTkLDModel.__call__ interp self emu xs w).1.1 = true) /\
  (forall call p,
     call (LDTkLDModel.base self) (LDModel._int_mu (LDTkLDModel.base self)) x = Ok p ->
     LDModel.integrate call (LDTkLDModel.base self) x
     = Ok (fmul (fmul (fofZ 2) fpi)
             (np_trapz (arr_mul (LDModel._int_z (LDTkLDModel.base self)) p)
                (LDModel._int_z (LDTkLDModel.base self))))) /\
  LDModel.integrate LDModel.__call__ (LDTkLDModel.base self) x
  = Raise NotImplementedError.
Proof.
  split; [reflexivity|]. split; [|split; [|reflexivity]].
  - intros emu xs w Hpos.
    destruct (LDTkLDModel.frozen self) eqn:Hfrozen.
    + rewrite call_frozen by exact Hfrozen.
      destruct (Z.ltb_spec 0 (LDTkLDModel.nsamples self)); [reflexivity | lia].
    + rewrite call_sampled by assumption.
      destruct (eval_ldm_ok interp emu (LDTkLDModel.mu self) (LDTkLDModel.z self)
                  (LDTkLDModel.profiles self) (LDTkLDModel.batch_size xs)
                  (LDTkLDModel.nsamples self) (nb_rng w) Hpos)
        as (iis & ldp & ldi & g' & _ & E & _).
      rewrite E. reflexivity.
  - intros call p Hcall. unfold LDModel.integrate. rewrite Hcall. reflexivity.
Qed.

Lemma ldtk_integrate_not_supported_witness :
  LDTkLDModel.integrate (demo_model false) [1; 2]%float = Raise NotImplementedError /\
  is_ok (LDTkLDModel.__call__ np_interp (demo_model false) [0.25; 0.5]%float
           (Some [[1]; [2]]%float) demo_world).1.1 = true /\
  LDModel.integrate (fun _ mu _ => Ok mu) (LDTkLDModel.base (demo_model false)) [1; 2]%float
  = Ok (fmul (fmul (fofZ 2) fpi)
          (np_trapz (arr_mul (LDModel._int_z (LDTkLDModel.base (demo_model false)))
                       (LDModel._int_mu (LDTkLDModel.base (demo_model false))))
             (LDModel._int_z (LDTkLDModel.base (demo_model false))))).
Proof.
  destruct (ldtk_integrate_not_supported np_interp (demo_model false) [1; 2]%float)
    as (H1 & H2 & H3 & _).
  split; [exact H1|]. split.
  - apply H2. reflexivity.
  - apply H3. reflexivity.
Defined.

(** C7.  In frozen mode the arrays [__call__] returns do not depend on the
    generators, on the stored last draw or on the parameter vectors beyond
    their number: two calls with one [mu] grid and one batch size return
    identical arrays, also when the second call follows the first on the
    object and the generators the first one left.  The arrays are the row
    computed once from the mean profiles, repeated for every parameter
    vector. *)
Theorem frozen_call_deterministic {F : Type} `{Arith F}
    (interp : list F -> list F -> list F -> list F)
    (self : LDTkLDModel.t F) (emu : list F) (x1 x2 : option (list (list F)))
    (w1 w2 : world) (i0 : Z) :
  LDTkLDModel.frozen self = true ->
  LDTkLDModel.batch_size x1 = LDTkLDModel.batch_size x2 ->
  let c1 := LDTkLDModel.__call__ interp self emu x1 w1 in
  (LDTkLDModel.__call__ interp (LDTkLDModel.set_i self i0) emu x2 w2).1.1 = c1.1.1 /\
  (LDTkLDModel.__call__ interp c1.1.2 emu x2 c1.2).1.1 = c1.1.1 /\
  ((0 < LDTkLDModel.nsamples self)%Z ->
   c1.1.1 = Ok (replicate (LDTkLDModel.batch_size x1)
                  (map (interp emu (LDTkLDModel.mu self)) (LDTkLDModel.mean_profiles self)),
                replicate (LDTkLDModel.batch_size x1)
                  (map (disk_coefficient (LDTkLDModel.z self))
                     (LDTkLDModel.mean_profiles self)))).
Proof.
  intros Hfrozen Hsize c1. subst c1. split; [|split].
  - rewrite call_ignores_i, !call_frozen by exact Hfrozen. rewrite Hsize. reflexivity.
  - rewrite call_object.
    destruct (randint 0 (LDTkLDModel.nsamples self) (np_rng w1)).1 as [i|e].
    + rewrite call_ignores_i, !call_frozen by exact Hfrozen. rewrite Hsize. reflexivity.
    + rewrite !call_frozen by exact Hfrozen. rewrite Hsize. reflexivity.
  - intros Hpos. rewrite call_frozen by exact Hfrozen.
    destruct (Z.ltb_spec 0 (LDTkLDModel.nsamples self)); [reflexivity | lia].
Qed.

Lemma frozen_call_deterministic_witness :
  let c1 := LDTkLDModel.__call__ np_interp (demo_model true) [0.25; 0.5; 2]%float
              (Some [[1]; [2]; [3]]%float) demo_world in
  (LDTkLDModel.__call__ np_interp (LDTkLDModel.set_i (demo_model true) 1)
     [0.25; 0.5; 2]%float (Some [[4]; [5]; [6]]%float)
     (World (nb_rng demo_world) (np_rng demo_world))).1.1 = c1.1.1 /\
  (LDTkLDModel.__call__ np_interp c1.1.2 [0.25; 0.5; 2]%float
     (Some [[4]; [5]; [6]]%float) c1.2).1.1 = c1.1.1 /\
  c1.1.1 = Ok (replicate 3 [[0.5625; 0.75; 1]; [0.375; 0.5; 1]]%float,
               replicate 3
                 (map (disk_coefficient [1; 0.875; 0]%float)
                    [[0.375; 0.75; 1]; [0.25; 0.5; 1]]%float)).
Proof.
  destruct (frozen_call_deterministic np_interp (demo_model true) [0.25; 0.5; 2]%float
              (Some [[1]; [2]; [3]]%float) (Some [[4]; [5]; [6]]%float) demo_world
              (World (nb_rng demo_world) (np_rng demo_world)) 1
              eq_refl eq_refl) as (H1 & H2 & H3).
  split; [exact H1|]. split; [exact H2|]. apply H3. reflexivity.
Defined.

(** C8.  Outside frozen mode, with a non-empty sample range, [eval_ldm]
    draws one index per parameter vector; for every row there is one drawn
    index [k], within [[0, nsamples)], such that for every passband both the
    interpolated profile and the disk-integrated coefficient of the row are
    computed from the library profile [ldps[ipb, k]]. *)
Theorem eval_ldm_row_shares_draw {F : Type} `{Arith F}
    (interp : list F -> list F -> list F -> list F)
    (emu mu z : list F) (ldps : list (list (list F))) (npv : nat)
    (nsamples : Z) (g : rng) :
  (0 < nsamples)%Z ->
  exists (iis : list Z) (ldp : list (list (list F))) (ldi : list (list F)) (g' : rng),
    randint_size 0 nsamples npv g = (Ok iis, g') /\
    eval_ldm interp emu mu z ldps npv nsamples g = (Ok (ldp, ldi), g') /\
    length iis = npv /\
    forall ipv, ipv < npv ->
      exists k, iis !! ipv = Some k /\ (0 <= k < nsamples)%Z /\
        forall ipb, ipb < length ldps ->
          cell2 ldp ipv ipb = Some (interp emu mu (profile_at ldps ipb k)) /\
          cell2 ldi ipv ipb = Some (disk_coefficient z (profile_at ldps ipb k)).
Proof.
  intros Hpos.
  destruct (eval_ldm_ok interp emu mu z ldps npv nsamples g Hpos)
    as (iis & ldp & ldi & g' & Hr & He & Hlen & _ & _ & Hrows).
  exists iis, ldp, ldi, g'. auto.
Qed.

Lemma eval_ldm_row_shares_draw_witness :
  exists (iis : list Z) (ldp : list (list (list float))) (ldi : list (list float))
         (g' : rng),
    randint_size 0 2 3 (nb_rng demo_world) = (Ok iis, g') /\
    eval_ldm np_interp [0.25; 0.5; 2]%float (LDTkLDModel._mu demo_ps)
      (LDTkLDModel._z demo_ps) (LDTkLDModel._ldps demo_ps) 3 2 (nb_rng demo_world)
    = (Ok (ldp, ldi), g') /\
    length iis = 3 /\
    forall ipv, ipv < 3 ->
      exists k, iis !! ipv = Some k /\ (0 <= k < 2)%Z /\
        forall ipb, ipb < length (LDTkLDModel._ldps demo_ps) ->
          cell2 ldp ipv ipb
          = Some (np_interp [0.25; 0.5; 2]%float (LDTkLDModel._mu demo_ps)
                    (profile_at (LDTkLDModel._ldps demo_ps) ipb k)) /\
          cell2 ldi ipv ipb
          = Some (disk_coefficient (LDTkLDModel._z demo_ps)
                    (profile_at (LDTkLDModel._ldps demo_ps) ipb k)).
Proof.
  apply (eval_ldm_row_shares_draw np_interp). reflexivity.
Defined.

(** C10.  A call of [__call__] changes no attribute of the object but [_i]:
    the grids, the profile library, the mean profiles, [nsamples], [npb] and
    the frozen flag are the ones before the call.  With a non-empty sample
    range, and in frozen mode too, [_i] is overwritten with the draw
    [randint(0, nsamples)] from numpy's generator, a value of
    [[0, nsamples)].  The arrays returned do not depend on the value stored in
    [_i]; outside frozen mode they are those of [eval_ldm], which draws the
    row indices itself from the generator of the compiled code. *)
Theorem call_mutates_only_last_draw {F : Type} `{Arith F}
    (interp : list F -> list F -> list F -> list F)
    (self : LDTkLDModel.t F) (emu : list F) (x : option (list (list F))) (w : world) :
  let c := LDTkLDModel.__call__ interp self emu x w in
  let self' := c.1.2 in
  (LDTkLDModel.base self' = LDTkLDModel.base self /\
   LDTkLDModel.npb self' = LDTkLDModel.npb self /\
   LDTkLDModel.nsamples self' = LDTkLDModel.nsamples self /\
   LDTkLDModel.frozen self' = LDTkLDModel.frozen self /\
   LDTkLDModel.z self' = LDTkLDModel.z self /\
   LDTkLDModel.mu self' = LDTkLDModel.mu self /\
   LDTkLDModel.profiles self' = LDTkLDModel.profiles self /\
   LDTkLDModel.mean_profiles self' = LDTkLDModel.mean_profiles self) /\
  ((0 < LDTkLDModel.nsamples self)%Z ->
   exists i, (randint 0 (LDTkLDModel.nsamples self) (np_rng w)).1 = Ok i /\
     (0 <= i < LDTkLDModel.nsamples self)%Z /\
     self' = LDTkLDModel.set_i self i /\ LDTkLDModel._i self' = i) /\
  (forall i0, (LDTkLDModel.__call__ interp (LDTkLDModel.set_i self i0) emu x w).1.1
              = c.1.1) /\
  (LDTkLDModel.frozen self = false -> (0 < LDTkLDModel.nsamples self)%Z ->
   c.1.1 = (eval_ldm interp emu (LDTkLDModel.mu self) (LDTkLDModel.z self)
              (LDTkLDModel.profiles self) (LDTkLDModel.batch_size x)
              (LDTkLDModel.nsamples self) (nb_rng w)).1).
Proof.
  intros c self'. subst self' c. split; [|split; [|split]].
  - rewrite call_object.
    destruct (randint 0 (LDTkLDModel.nsamples self) (np_rng w)).1;
      repeat split; reflexivity.
  - intros Hpos. rewrite call_object.
    destruct (randint_ok 0 (LDTkLDModel.nsamples self) (np_rng w) Hpos) as (i & E & Hi).
    rewrite E. exists i. repeat split; try reflexivity; lia.
  - intros i0. apply call_ignores_i.
  - intros Hfrozen Hpos. apply call_sampled; assumption.
Qed.

Lemma call_mutates_only_last_draw_witness :
  let c := LDTkLDModel.__call__ np_interp (demo_model true) [0.25; 0.5; 2]%float
             None demo_world in
  (exists i, (randint 0 2 (np_rng demo_world)).1 = Ok i /\ (0 <= i < 2)%Z /\
     c.1.2 = LDTkLDModel.set_i (demo_model true) i /\ LDTkLDModel._i c.1.2 = i) /\
  (let c' := LDTkLDModel.__call__ np_interp (demo_model false) [0.25; 0.5; 2]%float
               None demo_world in
   c'.1.1 = (eval_ldm np_interp [0.25; 0.5; 2]%float (LDTkLDModel._mu demo_ps)
               (LDTkLDModel._z demo_ps) (LDTkLDModel._ldps demo_ps) 1 2
               (nb_rng demo_world)).1).
Proof.
  split.
  - apply (call_mutates_only_last_draw np_interp (demo_model true)
             [0.25; 0.5; 2]%float None demo_world). reflexivity.
  - apply (call_mutates_only_last_draw np_interp (demo_model false)
             [0.25; 0.5; 2]%float None demo_world); reflexivity.
Defined.

(** ** The loop of the time binner *)

Lemma select_map_filter {A B : Type} (p : A -> bool) (f : A -> B) (l : list A) :
  select (map p l) (map f l) = map f (List.filter p l).
Proof.
  induction l as [|a l IH]; [reflexivity|].
  simpl. destruct (p a); simpl; rewrite IH; reflexivity.
Qed.

(** A positive bin width is not zero. *)
Lemma float_pos_nonzero (d : float) :
  PrimFloat.ltb 0 d = true -> PrimFloat.eqb d 0 = false.
Proof.
  intros Hlt. rewrite FloatAxioms.ltb_spec in Hlt. rewrite FloatAxioms.eqb_spec.
  change (Prim2SF 0) with (S754_zero false) in *.
  destruct (Prim2SF d) as [s|s| |s m e]; try destruct s; cbn in *; congruence.
Qed.

Section BinnerFacts.
Context {F : Type} `{Float64 F}.
Variables time vals : list F.
Variable bids : list Z.

(** The three arrays when the bins [done] have been visited and [k] bins
    are still to come. *)
Lemma bin_loop_from (done todo : list Z) :
  fold_left (bin_body time vals bids) (zip (seq (length done) (length todo)) todo)
    (map (fun b => (bin_stat time vals bids b).1.1) done ++ replicate (length todo) fnan,
     map (fun b => (bin_stat time vals bids b).1.2) done ++ replicate (length todo) fzero,
     map (fun b => (bin_stat time vals bids b).2) done ++ replicate (length todo) fzero)
  = split3 (map (bin_stat time vals bids) (done ++ todo)).
Proof.
  revert done. induction todo as [|b todo IH]; intros done.
  - simpl. rewrite !app_nil_r. unfold split3. rewrite !map_map. reflexivity.
  - specialize (IH (done ++ [b])).
    rewrite length_app, Nat.add_1_r, <- app_assoc in IH. cbn [app] in IH.
    rewrite <- IH. clear IH.
    cbn [length seq zip zip_with fold_left replicate]. f_equal.
    unfold bin_body, bin_stat.
    rewrite !map_app. cbn [map]. rewrite <- !app_assoc. cbn [app].
    destruct (0 <? mask_sum (bin_mask b bids)).
    + cbn [fst snd].
      rewrite !insert_app_r_alt by (rewrite length_map; lia).
      rewrite !length_map, Nat.sub_diag. reflexivity.
    + reflexivity.
Qed.

(** The loop leaves the statistics of every bin, in bin order. *)
Lemma bin_loop_closed (bins : list Z) :
  fold_left (bin_body time vals bids) (zip (seq 0 (length bins)) bins)
    (replicate (length bins) fnan, replicate (length bins) fzero,
     replicate (length bins) fzero)
  = split3 (map (bin_stat time vals bids) bins).
Proof. exact (bin_loop_from [] bins). Qed.

End BinnerFacts.

Section BinnerResult.
Context {F : Type} `{Float64 F}.

Lemma length_arange (n : Z) : length (arange n) = Z.to_nat n.
Proof. unfold arange. rewrite length_map, length_seq. reflexivity. Qed.

Lemma lookup_arange (n : Z) (i : nat) :
  i < Z.to_nat n -> arange n !! i = Some (Z.of_nat i).
Proof.
  intros Hi. unfold arange. rewrite lookup_map, lookup_seq_lt by exact Hi. reflexivity.
Qed.

(** With a bin count that is not negative, [downsample_time] returns the
    statistics of the bins whose error is finite, in bin order. *)
Lemma downsample_time_closed (time vals : list F) (inttime : F) (nbins : Z) :
  bin_count time inttime = Ok nbins -> (0 <= nbins)%Z ->
  downsample_time time vals inttime
  = Ok (split3 (List.filter (fun s => fisfinite s.2)
                  (map (bin_stat time vals (bin_ids time inttime nbins)) (arange nbins)))).
Proof.
  intros Hcount Hpos. unfold downsample_time. rewrite Hcount.
  destruct (Z.ltb_spec nbins 0) as [Hneg|_]; [lia|].
  rewrite <- (length_arange nbins).
  rewrite bin_loop_closed.
  set (stats := map (bin_stat time vals (bin_ids time inttime nbins)) (arange nbins)).
  unfold split3. cbv beta iota zeta.
  rewrite (map_map (fun s : F * F * F => s.2) fisfinite).
  rewrite !(select_map_filter (fun s : F * F * F => fisfinite s.2)).
  reflexivity.
Qed.

(** The edges are [time[0] + i * inttime]. *)
Lemma bin_edges_lookup (time : list F) (inttime : F) (nbins : Z) (i : nat) :
  i < Z.to_nat nbins ->
  bin_edges time inttime (arange nbins) !! i
  = Some (fadd (getitem fzero time 0) (fmul (fofZ (Z.of_nat i)) inttime)).
Proof.
  intros Hi. unfold bin_edges. rewrite lookup_map, lookup_arange by exact Hi.
  reflexivity.
Qed.

(** The minimum of a series whose first sample is below no other is that
    sample. *)
Lemma array_min_first (t0 : F) (rest : list F) :
  fisnan t0 = false ->
  Forall (fun v => fisnan v = false /\ fltb v t0 = false) rest ->
  array_min (t0 :: rest) = Ok t0.
Proof.
  intros Hnan Hrest. unfold array_min. f_equal.
  induction Hrest as [|v rest [Hv Hlt] _ IH]; [reflexivity|].
  simpl. unfold min_step at 2. rewrite Hnan, Hv, Hlt. exact IH.
Qed.

End BinnerResult.

(** ** Claims on the time binner *)

(** C1, as the code has it.  For a non-empty series and a bin width above
    zero the number of bins is [int(ceil((max(time) - min(time)) / inttime))]
    and there is one edge per bin, edge [i] being [time[0] + i * inttime]:
    the edges start at the first sample and advance by the bin width.  The
    first sample is the minimum of the series when no sample lies below it,
    as in a series sorted by time. *)
Theorem bin_edges_start_at_first_sample (t0 : float) (rest vals : list float)
    (inttime : float) :
  PrimFloat.ltb 0 inttime = true ->
  let time := t0 :: rest in
  exists tmax tmin : float,
    array_max time = Ok tmax /\ array_min time = Ok tmin /\
    let nbins := float_ceil_int ((tmax - tmin) / inttime)%float in
    let edges := bin_edges time inttime (arange nbins) in
    bin_count time inttime = Ok nbins /\
    length edges = Z.to_nat nbins /\
    (forall i, i < Z.to_nat nbins ->
       edges !! i = Some (t0 + float_of_Z (Z.of_nat i) * inttime)%float) /\
    ((0 <= nbins)%Z ->
     downsample_time time vals inttime
     = Ok (split3
             (List.filter (fun s => PrimFloat.is_finite s.2)
                (map (bin_stat time vals
                        (map (fun d => (d - 1)%Z) (digitize time edges)))
                   (arange nbins))))) /\
    (PrimFloat.is_nan t0 = false ->
     Forall (fun v => PrimFloat.is_nan v = false /\ PrimFloat.ltb v t0 = false) rest ->
     tmin = t0).
Proof.
  intros Hpos time.
  exists (fold_left max_step rest t0), (fold_left min_step rest t0).
  split; [reflexivity|]. split; [reflexivity|].
  intros nbins edges.
  assert (Hcount : bin_count time inttime = Ok nbins).
  { unfold bin_count. cbn [array_max array_min time].
    cbn [feqb fzero float_float64 f64_arith float_arith].
    rewrite (float_pos_nonzero inttime Hpos). reflexivity. }
  split; [exact Hcount|]. split.
  { unfold edges, bin_edges. rewrite length_map. apply length_arange. }
  split.
  { intros i Hi. unfold edges.
    rewrite (bin_edges_lookup time inttime nbins i Hi). reflexivity. }
  split.
  { intros Hnonneg.
    apply (downsample_time_closed time vals inttime nbins Hcount Hnonneg). }
  intros Hnan Hrest.
  pose proof (array_min_first t0 rest Hnan Hrest) as Hmin.
  unfold array_min in Hmin. congruence.
Qed.

Lemma bin_edges_start_at_first_sample_witness :
  let time := [0; 1; 2; 4; 5; 6; 8]%float in
  let vals := [9; 9; 9; 5; 5; 5; 5]%float in
  PrimFloat.ltb 0 4 = true /\
  exists tmax tmin : float,
    array_max time = Ok tmax /\ array_min time = Ok tmin /\
    let nbins := float_ceil_int ((tmax - tmin) / 4)%float in
    let edges := bin_edges time 4%float (arange nbins) in
    bin_count time 4%float = Ok nbins /\
    length edges = Z.to_nat nbins /\
    (forall i, i < Z.to_nat nbins ->
       edges !! i = Some (0 + float_of_Z (Z.of_nat i) * 4)%float) /\
    ((0 <= nbins)%Z ->
     downsample_time time vals 4%float
     = Ok (split3
             (List.filter (fun s => PrimFloat.is_finite s.2)
                (map (bin_stat time vals
                        (map (fun d => (d - 1)%Z) (digitize time edges)))
                   (arange nbins))))) /\
    (PrimFloat.is_nan 0 = false ->
     Forall (fun v => PrimFloat.is_nan v = false /\ PrimFloat.ltb v 0 = false)
       [1; 2; 4; 5; 6; 8]%float ->
     tmin = 0%float).
Proof.
  intros time vals. split; [reflexivity|].
  apply (bin_edges_start_at_first_sample 0 [1; 2; 4; 5; 6; 8]%float vals 4).
  reflexivity.
Defined.

(** C1, as the specification has it, fails on a series that does not start
    at its minimum: the minimum is 0 but the edges are 4 and 8, the three
    samples below 4 fall into no bin, and the same samples in time order give
    other bins. *)
Lemma bin_edges_origin_counterexample :
  let time := [4; 0; 1; 2; 5; 6; 8]%float in
  PrimFloat.ltb 0 4 = true /\
  array_min time = Ok 0%float /\
  bin_count time 4%float = Ok 2%Z /\
  bin_edges time 4%float (arange 2) = [4; 8]%float /\
  bin_sizes time 4%float 2 = [3; 1] /\
  downsample_time time [5; 9; 9; 9; 5; 5; 5]%float 4%float
  = Ok ([5], [5], [0])%float /\
  downsample_time [0; 1; 2; 4; 5; 6; 8]%float [9; 9; 9; 5; 5; 5; 5]%float 4%float
  = Ok ([1; 5.75], [9; 5], [0; 0])%float.
Proof. vm_compute. repeat split; reflexivity. Qed.

(** C3, as the code has it.  The binner does not look at the sign of the bin
    width.  A zero width raises [ZeroDivisionError] at the division;
    otherwise the bin count [int(ceil((max - min) / inttime))] decides: a
    negative count raises [ValueError] when the output arrays are allocated,
    and a count of zero returns three empty arrays. *)
Theorem downsample_time_unchecked_width {F : Type} `{Float64 F}
    (t0 : F) (rest vals : list F) (inttime : F) :
  let time := t0 :: rest in
  (feqb inttime fzero = true ->
   downsample_time time vals inttime = Raise ZeroDivisionError) /\
  (forall nbins, bin_count time inttime = Ok nbins -> (nbins < 0)%Z ->
   downsample_time time vals inttime = Raise ValueError) /\
  (forall nbins, bin_count time inttime = Ok nbins -> nbins = 0%Z ->
   downsample_time time vals inttime = Ok ([], [], [])).
Proof.
  intros time. split; [|split].
  - intros Hzero. unfold downsample_time, bin_count. cbn [array_max array_min time].
    rewrite Hzero. reflexivity.
  - intros nbins Hcount Hneg. unfold downsample_time. rewrite Hcount.
    destruct (Z.ltb_spec nbins 0); [reflexivity | lia].
  - intros nbins Hcount ->.
    rewrite (downsample_time_closed time vals inttime 0 Hcount ltac:(lia)).
    reflexivity.
Qed.

Lemma downsample_time_unchecked_width_witness :
  downsample_time [0; 1; 2]%float [1; 1; 1]%float 0%float = Raise ZeroDivisionError /\
  downsample_time [0; 1; 2]%float [1; 1; 1]%float (-1)%float = Raise ValueError /\
  downsample_time [0; 1; 2]%float [1; 1; 1]%float (-5)%float = Ok ([], [], []).
Proof.
  split; [|split].
  - apply (downsample_time_unchecked_width 0%float [1; 2]%float [1; 1; 1]%float 0%float).
    reflexivity.
  - apply (downsample_time_unchecked_width 0%float [1; 2]%float [1; 1; 1]%float (-1)%float)
      with (nbins := (-2)%Z); reflexivity.
  - apply (downsample_time_unchecked_width 0%float [1; 2]%float [1; 1; 1]%float (-5)%float)
      with (nbins := 0%Z); reflexivity.
Defined.

(** C3, as the specification has it, fails for the width -5 on a series that
    spans 2: the call returns three empty arrays and raises nothing. *)
Lemma nonpositive_width_counterexample :
  PrimFloat.leb (-5) 0 = true /\
  bin_count [0; 1; 2]%float (-5)%float = Ok 0%Z /\
  downsample_time [0; 1; 2]%float [1; 1; 1]%float (-5)%float = Ok ([], [], []).
Proof. vm_compute. repeat split; reflexivity. Qed.

(** C4, as the code has it.  On an empty series the binner raises
    [ValueError], at [time.max()], whatever the values and the bin width. *)
Theorem downsample_time_empty_raises {F : Type} `{Float64 F}
    (vals : list F) (inttime : F) :
  downsample_time [] vals inttime = Raise ValueError.
Proof. reflexivity. Qed.

(** C4, as the specification has it, fails: the empty series with the bin
    width 1 gives an exception, not three empty arrays. *)
Lemma empty_series_counterexample :
  PrimFloat.ltb 0 1 = true /\
  downsample_time ([] : list float) [] 1%float = Raise ValueError /\
  downsample_time ([] : list float) [] 1%float <> Ok ([], [], []).
Proof. split; [reflexivity|]. split; [reflexivity | discriminate]. Qed.

(** C5, as the code has it.  With a bin count that is not negative the
    output arrays hold the bins whose error is finite, and no others, in bin
    order.  The error of a bin with more than two samples is the standard
    deviation of its values ([std()], the divisor being the sample count)
    over the square root of the sample count; with one or two samples it is
    NaN, and the bin is dropped; an empty bin keeps the initial values (NaN,
    0, 0), so its error 0 is finite and the bin is kept. *)
Theorem downsample_time_keeps_finite_errors (time vals : list float)
    (inttime : float) (nbins : Z) :
  bin_count time inttime = Ok nbins -> (0 <= nbins)%Z ->
  let bids := bin_ids time inttime nbins in
  let stats := map (bin_stat time vals bids) (arange nbins) in
  downsample_time time vals inttime
  = Ok (split3 (List.filter (fun s => PrimFloat.is_finite s.2) stats)) /\
  forall bid : Z,
    let n := mask_sum (bin_mask bid bids) in
    let s := bin_stat time vals bids bid in
    (n = 0 -> s = (nan, 0, 0)%float /\ PrimFloat.is_finite s.2 = true) /\
    (1 <= n <= 2 -> s.2 = nan /\ PrimFloat.is_finite s.2 = false) /\
    (2 < n ->
     s.2 = (std (select (bin_mask bid bids) vals)
            / PrimFloat.sqrt (float_of_Z (Z.of_nat n)))%float).
Proof.
  intros Hcount Hpos bids stats. split.
  - apply (downsample_time_closed time vals inttime nbins Hcount Hpos).
  - intros bid n s. subst s. unfold bin_stat. fold n.
    destruct (Nat.ltb_spec 0 n) as [H0|H0]; destruct (Nat.ltb_spec 2 n) as [H2|H2];
      (split; [|split]); intros Hn; try lia; try (split; reflexivity); reflexivity.
Qed.

Lemma downsample_time_keeps_finite_errors_witness :
  let time := [0; 0.25; 0.5; 1; 1.5; 1.75; 3; 3.5; 5]%float in
  let vals := [1; 2; 3; 4; 4; 4; 7; 8; 9]%float in
  let bids := bin_ids time 1%float 5 in
  let stats := map (bin_stat time vals bids) (arange 5) in
  bin_count time 1%float = Ok 5%Z /\
  downsample_time time vals 1%float
  = Ok (split3 (List.filter (fun s => PrimFloat.is_finite s.2) stats)) /\
  forall bid : Z,
    let n := mask_sum (bin_mask bid bids) in
    let s := bin_stat time vals bids bid in
    (n = 0 -> s = (nan, 0, 0)%float /\ PrimFloat.is_finite s.2 = true) /\
    (1 <= n <= 2 -> s.2 = nan /\ PrimFloat.is_finite s.2 = false) /\
    (2 < n ->
     s.2 = (std (select (bin_mask bid bids) vals)
            / PrimFloat.sqrt (float_of_Z (Z.of_nat n)))%float).
Proof.
  intros time vals bids stats.
  assert (Hcount : bin_count time 1%float = Ok 5%Z) by (vm_compute; reflexivity).
  split; [exact Hcount|].
  exact (downsample_time_keeps_finite_errors time vals 1%float 5 Hcount
           ltac:(discriminate)).
Defined.

(** C5, as the specification has it, fails where a bin is empty: no bin of
    the series below holds more than two samples, and one bin, the empty
    one, is returned. *)
Lemma sparse_bins_counterexample :
  bin_count [0; 3]%float 1%float = Ok 3%Z /\
  bin_sizes [0; 3]%float 1%float 3 = [1; 0; 1] /\
  downsample_time [0; 3]%float [1; 2]%float 1%float = Ok ([nan], [0], [0])%float.
Proof. vm_compute. repeat split; reflexivity. Qed.

(** ** Claims on the integrators *)

Section GridR.
Local Open Scope R_scope.

(** The grid of [numpy.linspace(0, 1, n + 1)] over the real numbers. *)
Lemma linspace_unit (n : nat) :
  (0 < n)%nat ->
  @linspace R _ 0 1 (S n) = map (fun i => INR i / INR n) (seq 0 (S n)).
Proof.
  intros Hn. unfold linspace.
  replace (S n - 1)%nat with n by lia.
  assert (Hn' : INR n <> 0) by (apply not_0_INR; lia).
  rewrite (map_ext _ (fun i => INR i / INR n)).
  - apply list_insert_id.
    rewrite lookup_map, lookup_seq_lt by lia. cbn. f_equal.
    unfold Rdiv. apply Rinv_r. exact Hn'.
  - intros i. cbn. change (1 - 0)%Z with 1%Z. rewrite <- !INR_IZR_INZ. field. exact Hn'.
Qed.

Lemma Sorted_map_seq (f : nat -> R) (a n : nat) :
  (forall i, f i < f (S i)) -> Sorted Rlt (map f (seq a n)).
Proof.
  intros Hf. revert a. induction n as [|n IH]; intros a; [constructor|].
  cbn [seq map]. constructor; [apply IH|].
  destruct n; constructor. apply Hf.
Qed.

(** The grid of the base class starts at 0 and increases. *)
Lemma int_z_increasing :
  exists (z1 : R) (z : list R),
    LDModel._int_z (@LDModel.__init__ R _) = 0 :: z1 :: z /\
    length z = 198%nat /\ Sorted Rlt (0 :: z1 :: z).
Proof.
  cbn [LDModel.__init__ LDModel._int_z].
  rewrite (linspace_unit 199) by lia.
  pose proof (Sorted_map_seq (fun i => INR i / INR 199) 0 200) as Hs.
  rewrite <- (cons_seq 199 0), <- (cons_seq 198 1) in Hs.
  rewrite <- (cons_seq 199 0), <- (cons_seq 198 1).
  cbn [map] in *.
  replace (INR 0 / INR 199) with 0 in * by (cbn [INR]; lra).
  eexists _, _. split; [reflexivity|]. split.
  - rewrite length_map, length_seq. reflexivity.
  - apply Hs. intros i. rewrite (S_INR i).
    assert (0 < INR 199) by (apply lt_0_INR; lia).
    apply Rmult_lt_compat_r; [apply Rinv_0_lt_compat; assumption | lra].
Qed.

Lemma stdpp_last_cons (z0 : R) (z : list R) : last (z0 :: z) = Some (List.last z z0).
Proof.
  revert z0. induction z as [|z1 z IH]; intros z0; [reflexivity|].
  rewrite last_cons_cons, IH. rewrite (last_cons z z1 z0). reflexivity.
Qed.

(** On a grid from 0 to 1 the coefficient of the unit profile is [-π]. *)
Lemma disk_coefficient_unit_profile (z : list R) :
  head z = Some 0 -> last z = Some 1 ->
  disk_coefficient z (replicate (length z) 1) = - PI.
Proof.
  intros Hhead Hlast. destruct z as [|z0 z]; [discriminate|].
  injection Hhead as ->. rewrite stdpp_last_cons in Hlast. injection Hlast as Hlast.
  rewrite disk_coefficient_R, arr_mul_ones, trapezoid_sum_rec by reflexivity.
  rewrite trapezoid_rec_identity, Hlast. lra.
Qed.

(** The [integrate] of the base class on its grid, for a profile that is
    positive everywhere. *)
Lemma base_integrate_positive
    (call : LDModel.t R -> list R -> list R -> result (list R))
    (x p : list R) :
  call LDModel.__init__ (LDModel._int_mu LDModel.__init__) x = Ok p ->
  length p = 200%nat -> Forall (Rlt 0) p ->
  exists v,
    LDModel.integrate call LDModel.__init__ x = Ok v /\
    v = 2 * PI * trapezoid_sum (LDModel._int_z LDModel.__init__)
                   (arr_mul (LDModel._int_z LDModel.__init__) p) /\
    0 < v.
Proof.
  intros Hcall Hlen Hp.
  destruct int_z_increasing as (z1 & z & Hz & Hzlen & Hsorted).
  unfold LDModel.integrate. rewrite Hcall, Hz.
  eexists. split; [reflexivity|].
  rewrite np_trapz_rec.
  assert (Hlen2 : length (0 :: z1 :: z) = length (arr_mul (0 :: z1 :: z) p)).
  { unfold arr_mul. rewrite length_zip_with. cbn [length]. lia. }
  rewrite (trapezoid_sum_rec _ _ Hlen2).
  split; [cbn; ring|].
  destruct p as [|p0 [|p1 p]]; [discriminate | discriminate |].
  pose proof (trapezoid_rec_pos 0 z1 z p p0 p1 ltac:(lra) Hsorted Hp
                ltac:(cbn [length] in Hlen; lia)) as Hpos.
  pose proof PI_RGT_0. cbn [fmul fofZ fpi R_arith].
  apply Rmult_lt_0_compat; [lra | exact Hpos].
Qed.

End GridR.

(** C9.  For two sequences of one length [ntrapz] returns, on every
    carrier and so on binary64 bit for bit, the sum from left to right,
    started at zero, of the terms [(x[i] - x[i-1]) * 0.5 * (y[i] + y[i-1])]
    for [i = 1 .. n-1].  Over the real numbers that is the trapezoidal sum
    [Σ (x[i] - x[i-1]) · (y[i] + y[i-1]) / 2].  On an input of length 0 or 1
    it returns the zero it starts from: the function has no path that
    raises. *)
Theorem ntrapz_trapezoid_rule :
  (forall (F : Type) (A : Arith F) (x y : list F),
     length x = length y ->
     ntrapz x y = fold_left fadd (trapezoid_terms x y) fzero) /\
  (forall x y : list R, length x = length y -> ntrapz x y = trapezoid_sum x y) /\
  (forall (F : Type) (A : Arith F) (x y : list F),
     length x <= 1 -> ntrapz x y = fzero).
Proof.
  split; [|split].
  - intros F A x y Hlen. apply ntrapz_fold_terms. exact Hlen.
  - intros x y _. apply ntrapz_trapezoid_sum.
  - intros F A x y Hlen. apply ntrapz_short. exact Hlen.
Qed.

Lemma ntrapz_trapezoid_rule_witness :
  ntrapz [0; 1; 4]%float [1; 2; 3]%float
  = fold_left fadd (trapezoid_terms [0; 1; 4]%float [1; 2; 3]%float) 0%float /\
  ntrapz [0; 1; 2]%R [1; 1; 1]%R = trapezoid_sum [0; 1; 2]%R [1; 1; 1]%R /\
  ntrapz [5]%float [7]%float = 0%float /\
  ntrapz ([] : list float) [] = 0%float.
Proof.
  destruct ntrapz_trapezoid_rule as (Ha & Hb & Hc).
  split; [|split; [|split]].
  - apply (Ha float float_arith). reflexivity.
  - apply Hb. reflexivity.
  - apply (Hc float float_arith). simpl. lia.
  - apply (Hc float float_arith). simpl. lia.
Defined.

(** On binary64 the value of [ntrapz] is not always the trapezoidal sum as
    it is written, [(x[i] - x[i-1]) · (y[i] + y[i-1]) / 2]: the code halves
    the width first.  Between [0] and the smallest positive number, under the
    constant 1, the half width rounds to zero and [ntrapz] returns [0.0],
    while the sum as written is the smallest positive number. *)
Lemma ntrapz_trapezoid_rule_counterexample :
  ntrapz [0; 0x1p-1074]%float [1; 1]%float = 0%float /\
  ((0x1p-1074 - 0) * (1 + 1) / 2)%float = 0x1p-1074%float /\
  PrimFloat.eqb 0x1p-1074 0 = false /\
  trapezoid_terms [0; 0x1p-1074]%float [1; 1]%float = [0%float].
Proof. repeat split; vm_compute; reflexivity. Qed.

(** The constant 1 over a domain of width 2 integrates to 2, on binary64 and
    over the real numbers. *)
Example ntrapz_constant_float : ntrapz [0; 1; 2]%float [1; 1; 1]%float = 2%float.
Proof. reflexivity. Qed.

Example trapezoid_sum_constant : trapezoid_sum [0; 1; 2]%R [1; 1; 1]%R = 2%R.
Proof. unfold trapezoid_sum, trapezoid_term. simpl. lra. Qed.

(** On binary64 the [integrate] of the base class gives the binary64 [π] for
    the profile that is 1 everywhere. *)
Example base_integrate_unit_float :
  LDModel.integrate (fun _ _ _ => Ok (replicate 200 1%float)) LDModel.__init__ []
  = Ok (fpi : float).
Proof. vm_compute. reflexivity. Qed.

(** ** The sign of the coefficient on binary64 *)

Section Binary64Sign.
Local Open Scope float_scope.

(** Rounding is symmetric: the rounded product of the opposite is the
    opposite of the rounded product. *)
Lemma binary_round_aux_opp prec emax s m e l :
  binary_round_aux prec emax (negb s) m e l
  = SFopp (binary_round_aux prec emax s m e l).
Proof.
  unfold binary_round_aux.
  destruct (shr_fexp prec emax m e l) as [r1 e1].
  destruct (shr_fexp prec emax _ e1 loc_Exact) as [r2 e2].
  destruct (shr_m r2); [reflexivity| |reflexivity].
  destruct (e2 <=? emax - prec)%Z; reflexivity.
Qed.

Lemma SFmul_opp_l prec emax x y :
  SFmul prec emax (SFopp x) y = SFopp (SFmul prec emax x y).
Proof.
  destruct x as [sx|sx| |sx mx ex], y as [sy|sy| |sy my ey]; cbn [SFmul SFopp];
    try reflexivity; try (destruct sx, sy; reflexivity).
  rewrite <- binary_round_aux_opp. destruct sx, sy; reflexivity.
Qed.

Lemma float_mul_opp_l (a b : float) : (- a) * b = - (a * b).
Proof.
  apply Prim2SF_inj. rewrite mul_spec, !opp_spec, mul_spec. apply SFmul_opp_l.
Qed.

(** On binary64 [-2 * pi * t] is the opposite of [2 * pi * t], bit for bit. *)
Lemma disk_coefficient_float (z p : list float) :
  disk_coefficient z p = - (fmul (fmul (fofZ 2) fpi) (ntrapz z (arr_mul z p))).
Proof.
  unfold disk_coefficient.
  assert (E : @fmul float _ (fofZ (-2)) fpi = - (fmul (fofZ 2) fpi))
    by (vm_compute; reflexivity).
  rewrite E. apply float_mul_opp_l.
Qed.

End Binary64Sign.

(** Over the real numbers the unit profile gives [-π] times the difference
    of the squares of the two ends of the grid. *)
Lemma disk_coefficient_unit_ends (z : list R) (a b : R) :
  head z = Some a -> last z = Some b ->
  disk_coefficient z (replicate (length z) 1%R) = (- PI * (b * b - a * a))%R.
Proof.
  intros Hhead Hlast. destruct z as [|z0 z]; [discriminate|].
  injection Hhead as ->. rewrite stdpp_last_cons in Hlast. injection Hlast as Hlast.
  rewrite disk_coefficient_R, arr_mul_ones, trapezoid_sum_rec by reflexivity.
  rewrite trapezoid_rec_identity, Hlast. lra.
Qed.

(** C2.  The coefficient the sampled model computes for a row and a passband
    is the opposite of [2π] times [ntrapz(z, z · I)] over the grid [z] of the
    library, [I] being the profile with the index drawn for the row, an index
    of the sample range (or the mean profile, in frozen mode): bit for bit on
    binary64, and over the real numbers minus [2π] times the trapezoidal sum
    of [z · I(z)].  For the profile that is 1 everywhere the real number is
    [-π (b² - a²)] on a grid from [a] to [b]: [-π] on a grid from 0 up to 1,
    [+π] on a grid from 1 down to 0.  The [integrate] of the base class has no
    minus sign: it returns [2π] times [numpy.trapz] of [z · I] over its grid
    [linspace(0, 1, 200)], over the real numbers [2π] times the trapezoidal
    sum, which is positive for a profile that is positive everywhere. *)
Theorem disk_integration_sign_convention :
  (forall (interp : list float -> list float -> list float -> list float)
          (emu mu z : list float) (ldps : list (list (list float)))
          (npv : nat) (nsamples : Z) (g : rng),
     (0 < nsamples)%Z ->
     exists (iis : list Z) (ldp : list (list (list float))) (ldi : list (list float))
            (g' : rng),
       randint_size 0 nsamples npv g = (Ok iis, g') /\
       eval_ldm interp emu mu z ldps npv nsamples g = (Ok (ldp, ldi), g') /\
       forall ipv, ipv < npv ->
         exists k, iis !! ipv = Some k /\ (0 <= k < nsamples)%Z /\
           forall ipb, ipb < length ldps ->
             cell2 ldi ipv ipb
             = Some (PrimFloat.opp
                       (fmul (fmul (fofZ 2) fpi)
                             (ntrapz z (arr_mul z (profile_at ldps ipb k)))))) /\
  (forall (interp : list float -> list float -> list float -> list float)
          (emu mu z : list float) (mldps : list (list float)) (npv : nat),
     (eval_ldm_frozen interp emu mu z mldps npv).2
     = replicate npv
         (map (fun p => PrimFloat.opp
                          (fmul (fmul (fofZ 2) fpi) (ntrapz z (arr_mul z p))))
              mldps)) /\
  (forall (interp : list R -> list R -> list R -> list R) (emu mu z : list R)
          (ldps : list (list (list R))) (npv : nat) (nsamples : Z) (g : rng),
     (0 < nsamples)%Z ->
     exists (iis : list Z) (ldp : list (list (list R))) (ldi : list (list R)) (g' : rng),
       randint_size 0 nsamples npv g = (Ok iis, g') /\
       eval_ldm interp emu mu z ldps npv nsamples g = (Ok (ldp, ldi), g') /\
       forall ipv, ipv < npv ->
         exists k, iis !! ipv = Some k /\ (0 <= k < nsamples)%Z /\
           forall ipb, ipb < length ldps ->
             cell2 ldi ipv ipb
             = Some (- (2 * PI * trapezoid_sum z (arr_mul z (profile_at ldps ipb k))))%R) /\
  (forall (interp : list R -> list R -> list R -> list R) (emu mu z : list R)
          (mldps : list (list R)) (npv : nat),
     (eval_ldm_frozen interp emu mu z mldps npv).2
     = replicate npv
         (map (fun p => (- (2 * PI * trapezoid_sum z (arr_mul z p)))%R) mldps)) /\
  (forall (z : list R) (a b : R),
     head z = Some a -> last z = Some b ->
     disk_coefficient z (replicate (length z) 1%R) = (- PI * (b * b - a * a))%R) /\
  (forall z : list R,
     head z = Some 0%R -> last z = Some 1%R ->
     disk_coefficient z (replicate (length z) 1%R) = (- PI)%R) /\
  (forall z : list R,
     head z = Some 1%R -> last z = Some 0%R ->
     disk_coefficient z (replicate (length z) 1%R) = PI) /\
  (forall (F : Type) (A : Arith F)
          (call : LDModel.t F -> list F -> list F -> result (list F))
          (self : LDModel.t F) (x p : list F),
     call self (LDModel._int_mu self) x = Ok p ->
     LDModel.integrate call self x
     = Ok (fmul (fmul (fofZ 2) fpi)
                (np_trapz (arr_mul (LDModel._int_z self) p) (LDModel._int_z self)))) /\
  (forall (call : LDModel.t R -> list R -> list R -> result (list R)) (x p : list R),
     call LDModel.__init__ (LDModel._int_mu LDModel.__init__) x = Ok p ->
     length p = 200 -> Forall (Rlt 0) p ->
     exists v : R,
       LDModel.integrate call LDModel.__init__ x = Ok v /\
       v = (2 * PI * trapezoid_sum (LDModel._int_z LDModel.__init__)
                       (arr_mul (LDModel._int_z LDModel.__init__) p))%R /\
       (0 < v)%R).
Proof.
  repeat apply conj.
  - intros interp emu mu z ldps npv nsamples g Hpos.
    destruct (eval_ldm_ok interp emu mu z ldps npv nsamples g Hpos)
      as (iis & ldp & ldi & g' & Hr & He & _ & _ & _ & Hrows).
    exists iis, ldp, ldi, g'. split; [exact Hr|]. split; [exact He|].
    intros ipv Hipv. destruct (Hrows ipv Hipv) as (k & Hk & Hrange & Hcells).
    exists k. split; [exact Hk|]. split; [exact Hrange|]. intros ipb Hipb.
    destruct (Hcells ipb Hipb) as [_ Hc].
    rewrite Hc, disk_coefficient_float. reflexivity.
  - intros interp emu mu z mldps npv. rewrite eval_ldm_frozen_closed. cbn [snd].
    f_equal. apply map_ext. intros p. apply disk_coefficient_float.
  - intros interp emu mu z ldps npv nsamples g Hpos.
    destruct (eval_ldm_ok interp emu mu z ldps npv nsamples g Hpos)
      as (iis & ldp & ldi & g' & Hr & He & _ & _ & _ & Hrows).
    exists iis, ldp, ldi, g'. split; [exact Hr|]. split; [exact He|].
    intros ipv Hipv. destruct (Hrows ipv Hipv) as (k & Hk & Hrange & Hcells).
    exists k. split; [exact Hk|]. split; [exact Hrange|]. intros ipb Hipb.
    destruct (Hcells ipb Hipb) as [_ Hc]. rewrite Hc, disk_coefficient_R. reflexivity.
  - intros interp emu mu z mldps npv. rewrite eval_ldm_frozen_closed. cbn [snd].
    f_equal. apply map_ext. intros p. apply disk_coefficient_R.
  - apply disk_coefficient_unit_ends.
  - apply disk_coefficient_unit_profile.
  - intros z Hhead Hlast.
    rewrite (disk_coefficient_unit_ends z 1 0 Hhead Hlast). lra.
  - intros F A call self x p Hcall. unfold LDModel.integrate. rewrite Hcall.
    reflexivity.
  - apply base_integrate_positive.
Qed.

Lemma disk_integration_sign_convention_witness :
  (exists (iis : list Z) (ldp : list (list (list float))) (ldi : list (list float))
          (g' : rng),
     randint_size 0 2 2 (nb_rng demo_world) = (Ok iis, g') /\
     eval_ldm np_interp [0.25; 0.5]%float [0; 1]%float [1; 0]%float
       [[[1; 1]; [1; 0.5]]]%float 2 2 (nb_rng demo_world) = (Ok (ldp, ldi), g') /\
     forall ipv, ipv < 2 ->
       exists k, iis !! ipv = Some k /\ (0 <= k < 2)%Z /\
         forall ipb, ipb < length [[[1; 1]; [1; 0.5]]]%float ->
           cell2 ldi ipv ipb
           = Some (PrimFloat.opp
                     (fmul (fmul (fofZ 2) fpi)
                           (ntrapz [1; 0]%float
                              (arr_mul [1; 0]%float
                                 (profile_at [[[1; 1]; [1; 0.5]]]%float ipb k)))))) /\
  (exists (iis : list Z) (ldp : list (list (list R))) (ldi : list (list R)) (g' : rng),
     randint_size 0 2 2 (nb_rng demo_world) = (Ok iis, g') /\
     eval_ldm (fun _ _ fp => fp) [] [0; 1]%R [1; 0]%R [[[1; 1]; [1; 1 / 2]]]%R 2 2
       (nb_rng demo_world) = (Ok (ldp, ldi), g') /\
     forall ipv, ipv < 2 ->
       exists k, iis !! ipv = Some k /\ (0 <= k < 2)%Z /\
         forall ipb, ipb < length [[[1; 1]; [1; 1 / 2]]]%R ->
           cell2 ldi ipv ipb
           = Some (- (2 * PI * trapezoid_sum [1; 0]%R
                                (arr_mul [1; 0]%R
                                   (profile_at [[[1; 1]; [1; 1 / 2]]]%R ipb k))))%R) /\
  disk_coefficient [1 / 2; 3 / 4; 1]%R (replicate 3 1%R)
  = (- PI * (1 * 1 - 1 / 2 * (1 / 2)))%R /\
  disk_coefficient [0; 1 / 2; 1]%R (replicate 3 1%R) = (- PI)%R /\
  disk_coefficient [1; 1 / 2; 0]%R (replicate 3 1%R) = PI /\
  LDModel.integrate (fun _ _ _ => Ok (replicate 200 1%float)) LDModel.__init__ []
  = Ok (fmul (fmul (fofZ 2) fpi)
             (np_trapz (arr_mul (LDModel._int_z LDModel.__init__) (replicate 200 1%float))
                       (LDModel._int_z LDModel.__init__))) /\
  (exists v : R,
     LDModel.integrate (fun _ _ _ => Ok (replicate 200 1%R)) LDModel.__init__ [] = Ok v /\
     v = (2 * PI * trapezoid_sum (LDModel._int_z LDModel.__init__)
                     (arr_mul (LDModel._int_z LDModel.__init__) (replicate 200 1%R)))%R /\
     (0 < v)%R).
Proof.
  destruct disk_integration_sign_convention
    as (Ha & _ & Hc & _ & He & Hf & Hg & Hh & Hi).
  repeat apply conj.
  - exact (Ha np_interp [0.25; 0.5]%float [0; 1]%float [1; 0]%float
             [[[1; 1]; [1; 0.5]]]%float 2 2%Z (nb_rng demo_world) eq_refl).
  - exact (Hc (fun _ _ fp => fp) [] [0; 1]%R [1; 0]%R [[[1; 1]; [1; 1 / 2]]]%R 2 2%Z
             (nb_rng demo_world) eq_refl).
  - apply (He [1 / 2; 3 / 4; 1]%R); reflexivity.
  - apply (Hf [0; 1 / 2; 1]%R); reflexivity.
  - apply (Hg [1; 1 / 2; 0]%R); reflexivity.
  - apply (Hh float float_arith (fun _ _ _ => Ok (replicate 200 1%float))).
    reflexivity.
  - apply (Hi (fun _ _ _ => Ok (replicate 200 1%R)) []).
    + reflexivity.
    + apply length_replicate.
    + apply Forall_replicate. lra.
Defined.

(** C2, as the specification has it, fails in three ways.  On a grid that
    spans [0, 1] from 1 down to 0 the coefficient of the constant profile 1 is
    [+π], on binary64 as over the real numbers.  On binary64 the coefficient
    on a grid from 0 up to 1 is [-π] up to rounding only: on the grid
    [0, 0.3, 1] and on [linspace(0, 1, 200)] it is not the binary64 [-π].
    And on binary64 the [integrate] of the base class returns [0.0], not a
    positive number, for the profile that is the smallest positive number
    everywhere: every term underflows. *)
Lemma disk_integration_sign_convention_counterexample :
  disk_coefficient [1; 0.5; 0]%float [1; 1; 1]%float = fpi /\
  PrimFloat.ltb 0 (disk_coefficient [1; 0.5; 0]%float [1; 1; 1]%float) = true /\
  disk_coefficient [1; 1 / 2; 0]%R [1; 1; 1]%R = PI /\
  PrimFloat.eqb (disk_coefficient [0; 0x1.3333333333333p-2; 1]%float [1; 1; 1]%float)
    (PrimFloat.opp fpi) = false /\
  PrimFloat.ltb (PrimFloat.opp fpi)
    (disk_coefficient [0; 0x1.3333333333333p-2; 1]%float [1; 1; 1]%float) = true /\
  PrimFloat.eqb
    (disk_coefficient (LDModel._int_z LDModel.__init__) (replicate 200 1%float))
    (PrimFloat.opp fpi) = false /\
  PrimFloat.ltb 0
    (disk_coefficient (rev (LDModel._int_z LDModel.__init__)) (replicate 200 1%float))
  = true /\
  PrimFloat.ltb 0 0x1p-1074 = true /\
  LDModel.integrate (fun _ _ _ => Ok (replicate 200 0x1p-1074%float))
    LDModel.__init__ [] = Ok 0%float.
Proof.
  assert (HR : disk_coefficient [1; 1 / 2; 0]%R [1; 1; 1]%R = PI).
  { change [1; 1; 1]%R with (replicate (length [1; 1 / 2; 0]%R) 1%R).
    rewrite (disk_coefficient_unit_ends [1; 1 / 2; 0]%R 1%R 0%R eq_refl eq_refl).
    lra. }
  repeat apply conj; first [exact HR | vm_compute; reflexivity].
Qed.

(** ** Further properties *)

(** The three output arrays of the binner have one length, at most the
    number of bins. *)
Theorem retained_bins_bounded {F : Type} `{Float64 F}
    (time vals : list F) (inttime : F) (nbins : Z) (bt bv be : list F) :
  bin_count time inttime = Ok nbins -> (0 <= nbins)%Z ->
  downsample_time time vals inttime = Ok (bt, bv, be) ->
  length bt = length be /\ length bv = length be /\ length be <= Z.to_nat nbins.
Proof.
  intros Hcount Hpos Hout.
  rewrite (downsample_time_closed time vals inttime nbins Hcount Hpos) in Hout.
  unfold split3 in Hout. injection Hout as <- <- <-.
  rewrite !length_map. split; [reflexivity|]. split; [reflexivity|].
  etransitivity; [apply List.filter_length_le|].
  rewrite length_map, length_arange. reflexivity.
Qed.

Lemma retained_bins_bounded_witness :
  downsample_time [0; 0.25; 0.5; 1; 1.25; 1.5; 3]%float [2; 2; 2; 4; 4; 4; 7]%float 1%float
  = Ok ([0.25; 1.25], [2; 4], [0; 0])%float /\
  length [0.25; 1.25]%float = length [0; 0]%float /\
  length [2; 4]%float = length [0; 0]%float /\
  length [0; 0]%float <= Z.to_nat 3.
Proof.
  assert (Hout : downsample_time [0; 0.25; 0.5; 1; 1.25; 1.5; 3]%float
                   [2; 2; 2; 4; 4; 4; 7]%float 1%float
                 = Ok ([0.25; 1.25], [2; 4], [0; 0])%float)
    by (vm_compute; reflexivity).
  split; [exact Hout|].
  apply (retained_bins_bounded [0; 0.25; 0.5; 1; 1.25; 1.5; 3]%float
           [2; 2; 2; 4; 4; 4; 7]%float 1%float 3);
    [reflexivity | discriminate | exact Hout].
Defined.

(** ** The sampled model: shapes, failure, generators *)

Section Arrays2Ext.
Context {A : Type}.

(** Two arrays of one shape with the same entries are equal. *)
Lemma shape2_ext (n m : nat) (a b : list (list A)) :
  shape2 n m a -> shape2 n m b ->
  (forall i j, i < n -> j < m -> cell2 a i j = cell2 b i j) -> a = b.
Proof.
  intros [Han Ham] [Hbn Hbm] Hcell. apply list_eq_same_length with n; try assumption.
  intros i ra rb Hi Hra Hrb.
  rewrite Forall_lookup in Ham. rewrite Forall_lookup in Hbm.
  apply list_eq_same_length with m; [exact (Hbm _ _ Hrb) | exact (Ham _ _ Hra) |].
  intros j x y Hj Hx Hy.
  specialize (Hcell i j Hi Hj). unfold cell2 in Hcell.
  rewrite Hra, Hrb in Hcell. simpl in Hcell. congruence.
Qed.

Lemma shape2_replicate_row (n : nat) (row : list A) :
  shape2 n (length row) (replicate n row).
Proof.
  split; [apply length_replicate|]. apply Forall_replicate. reflexivity.
Qed.

Lemma cell2_replicate (n : nat) (row : list A) (i j : nat) :
  i < n -> cell2 (replicate n row) i j = row !! j.
Proof.
  intros Hi. unfold cell2. rewrite lookup_replicate_2 by exact Hi. reflexivity.
Qed.

End Arrays2Ext.

Section SampledModelMore.
Context {F : Type} `{Arith F}.
Variable interp : list F -> list F -> list F -> list F.
Implicit Types (self : LDTkLDModel.t F) (emu : list F) (x : option (list (list F))).

(** The arrays [__call__] returns have one row per parameter vector (one row
    when [x] is [None]) and one column per passband of the library read: the
    sampled profiles outside frozen mode, the mean profiles in frozen mode.
    The attribute [npb] plays no part. *)
Theorem call_result_shape self emu x (w : world) :
  (0 < LDTkLDModel.nsamples self)%Z ->
  let passbands :=
    if LDTkLDModel.frozen self then length (LDTkLDModel.mean_profiles self)
    else length (LDTkLDModel.profiles self) in
  exists (ldp : list (list (list F))) (ldi : list (list F)),
    (LDTkLDModel.__call__ interp self emu x w).1.1 = Ok (ldp, ldi) /\
    shape2 (LDTkLDModel.batch_size x) passbands ldp /\
    shape2 (LDTkLDModel.batch_size x) passbands ldi /\
    (x = None -> length ldp = 1 /\ length ldi = 1).
Proof.
  intros Hpos passbands. subst passbands.
  destruct (LDTkLDModel.frozen self) eqn:Hfrozen.
  - rewrite call_frozen by exact Hfrozen.
    destruct (Z.ltb_spec 0 (LDTkLDModel.nsamples self)) as [_|Hle]; [|lia].
    eexists _, _. split; [reflexivity|].
    pose proof (shape2_replicate_row (LDTkLDModel.batch_size x)
      (map (interp emu (LDTkLDModel.mu self)) (LDTkLDModel.mean_profiles self))) as S1.
    pose proof (shape2_replicate_row (LDTkLDModel.batch_size x)
      (map (disk_coefficient (LDTkLDModel.z self)) (LDTkLDModel.mean_profiles self))) as S2.
    rewrite length_map in S1, S2.
    split; [exact S1|]. split; [exact S2|].
    intros ->. rewrite !length_replicate. split; reflexivity.
  - rewrite call_sampled by assumption.
    destruct (eval_ldm_ok interp emu (LDTkLDModel.mu self) (LDTkLDModel.z self)
                (LDTkLDModel.profiles self) (LDTkLDModel.batch_size x)
                (LDTkLDModel.nsamples self) (nb_rng w) Hpos)
      as (iis & ldp & ldi & g' & _ & E & _ & S1 & S2 & _).
    exists ldp, ldi. rewrite E. split; [reflexivity|].
    split; [exact S1|]. split; [exact S2|].
    intros ->. destruct S1 as [L1 _], S2 as [L2 _]. split; assumption.
Qed.

(** With an empty sample range, [nsamples <= 0], [__call__] raises
    [ValueError] in frozen mode as outside it, and leaves the object, [_i]
    included, and both generators as they were.  [eval_ldm] on such a range
    raises [ValueError] at its first draw, the generator left as it was,
    when there is a parameter vector to draw for; for [npv = 0] it draws
    nothing and returns the two empty arrays. *)
Theorem call_empty_range_raises self emu x (w : world) :
  (LDTkLDModel.nsamples self <= 0)%Z ->
  LDTkLDModel.__call__ interp self emu x w = (Raise ValueError, self, w) /\
  (forall (mu z : list F) (ldps : list (list (list F))) (npv : nat) (g : rng),
     0 < npv ->
     eval_ldm interp emu mu z ldps npv (LDTkLDModel.nsamples self) g
     = (Raise ValueError, g)) /\
  (forall (mu z : list F) (ldps : list (list (list F))) (g : rng),
     eval_ldm interp emu mu z ldps 0 (LDTkLDModel.nsamples self) g
     = (Ok ([], []), g)).
Proof.
  intros Hle. split; [|split].
  - unfold LDTkLDModel.__call__, randint.
    destruct (Z.ltb_spec 0 (LDTkLDModel.nsamples self)) as [Hlt|_]; [lia|].
    destruct w. reflexivity.
  - intros mu z ldps npv g Hnpv. unfold eval_ldm.
    rewrite randint_size_empty_range by assumption. reflexivity.
  - intros mu z ldps g. reflexivity.
Qed.

(** A call that returns takes exactly one draw from numpy's generator.  In
    frozen mode the generator of the compiled code is not touched; outside
    frozen mode it is advanced by exactly one draw per parameter vector. *)
Theorem call_generator_use self emu x (w : world) :
  (0 < LDTkLDModel.nsamples self)%Z ->
  let w' := (LDTkLDModel.__call__ interp self emu x w).2 in
  (forall n, np_rng w' n = np_rng w (1 + n)) /\
  (LDTkLDModel.frozen self = true -> nb_rng w' = nb_rng w) /\
  (LDTkLDModel.frozen self = false ->
   forall n, nb_rng w' n = nb_rng w (LDTkLDModel.batch_size x + n)).
Proof.
  intros Hpos w'. subst w'. unfold LDTkLDModel.__call__, randint.
  destruct (Z.ltb_spec 0 (LDTkLDModel.nsamples self)) as [_|Hle]; [|lia].
  cbn [LDTkLDModel.set_i LDTkLDModel.frozen LDTkLDModel.mu LDTkLDModel.z
       LDTkLDModel.profiles LDTkLDModel.mean_profiles LDTkLDModel.nsamples].
  destruct (LDTkLDModel.frozen self).
  - cbn [snd np_rng nb_rng]. split; [|split].
    + intros n. reflexivity.
    + reflexivity.
    + discriminate.
  - unfold eval_ldm.
    pose proof (randint_size_advance 0 (LDTkLDModel.nsamples self)
                  (LDTkLDModel.batch_size x) (nb_rng w)) as Hadv.
    destruct (randint_size_ok 0 (LDTkLDModel.nsamples self)
                (LDTkLDModel.batch_size x) (nb_rng w) Hpos) as (vs & g' & E & _).
    rewrite E in *.
    cbn [snd np_rng nb_rng] in *. split; [|split].
    + intros n. reflexivity.
    + discriminate.
    + intros _ n. apply Hadv. exact Hpos.
Qed.

(** Frozen evaluation is sampled evaluation on a library all of whose
    samples are the mean profile: whatever the draws, [eval_ldm] on that
    library returns the arrays of [eval_ldm_frozen]. *)
Theorem eval_ldm_constant_library (emu mu z : list F) (mldps : list (list F))
    (npv n : nat) (g : rng) :
  0 < n ->
  (eval_ldm interp emu mu z (map (replicate n) mldps) npv (Z.of_nat n) g).1
  = Ok (eval_ldm_frozen interp emu mu z mldps npv).
Proof.
  intros Hn.
  destruct (eval_ldm_ok interp emu mu z (map (replicate n) mldps) npv (Z.of_nat n) g
              ltac:(lia))
    as (iis & ldp & ldi & g' & _ & E & _ & S1 & S2 & Hrows).
  rewrite E, eval_ldm_frozen_closed. cbn [fst]. rewrite length_map in *.
  assert (Hprof : forall ipb k, ipb < length mldps -> (0 <= k < Z.of_nat n)%Z ->
            profile_at (map (replicate n) mldps) ipb k = getitem [] mldps ipb).
  { intros ipb k Hipb Hk. unfold profile_at.
    destruct (lookup_lt_is_Some_2 mldps ipb Hipb) as [p Hp].
    rewrite (getitem_lookup [] mldps ipb p Hp).
    rewrite (getitem_lookup [] (map (replicate n) mldps) ipb (replicate n p))
      by (rewrite lookup_map, Hp; reflexivity).
    apply getitem_lookup, lookup_replicate_2. lia. }
  f_equal. f_equal.
  - apply (shape2_ext npv (length mldps)); [exact S1 | |].
    + pose proof (shape2_replicate_row npv (map (interp emu mu) mldps)) as S.
      rewrite length_map in S. exact S.
    + intros i j Hi Hj. destruct (Hrows i Hi) as (k & _ & Hk & Hcells).
      destruct (Hcells j Hj) as [C _]. rewrite C, cell2_replicate by exact Hi.
      rewrite lookup_map. destruct (lookup_lt_is_Some_2 mldps j Hj) as [p Hp].
      rewrite Hp, (Hprof j k Hj Hk), (getitem_lookup [] mldps j p Hp). reflexivity.
  - apply (shape2_ext npv (length mldps)); [exact S2 | |].
    + pose proof (shape2_replicate_row npv (map (disk_coefficient z) mldps)) as S.
      rewrite length_map in S. exact S.
    + intros i j Hi Hj. destruct (Hrows i Hi) as (k & _ & Hk & Hcells).
      destruct (Hcells j Hj) as [_ C]. rewrite C, cell2_replicate by exact Hi.
      rewrite lookup_map. destruct (lookup_lt_is_Some_2 mldps j Hj) as [p Hp].
      rewrite Hp, (Hprof j k Hj Hk), (getitem_lookup [] mldps j p Hp). reflexivity.
Qed.

End SampledModelMore.

Lemma call_result_shape_witness :
  (exists (ldp : list (list (list float))) (ldi : list (list float)),
     (LDTkLDModel.__call__ np_interp (demo_model false) [0.25; 0.5; 2]%float
        (Some [[1]; [2]; [3]]%float) demo_world).1.1 = Ok (ldp, ldi) /\
     shape2 3 2 ldp /\ shape2 3 2 ldi) /\
  (exists (ldp : list (list (list float))) (ldi : list (list float)),
     (LDTkLDModel.__call__ np_interp (demo_model true) [0.25; 0.5; 2]%float
        None demo_world).1.1 = Ok (ldp, ldi) /\
     shape2 1 2 ldp /\ shape2 1 2 ldi /\ length ldp = 1 /\ length ldi = 1).
Proof.
  split.
  - destruct (call_result_shape np_interp (demo_model false) [0.25; 0.5; 2]%float
                (Some [[1]; [2]; [3]]%float) demo_world eq_refl)
      as (ldp & ldi & E & S1 & S2 & _).
    exists ldp, ldi. auto.
  - destruct (call_result_shape np_interp (demo_model true) [0.25; 0.5; 2]%float
                None demo_world eq_refl)
      as (ldp & ldi & E & S1 & S2 & L).
    exists ldp, ldi. destruct (L eq_refl). auto.
Defined.

Lemma call_empty_range_raises_witness :
  LDTkLDModel.__call__ np_interp (LDTkLDModel.__init__ demo_ps 2 0 true)
    [0.25; 0.5]%float None demo_world
  = (Raise ValueError, LDTkLDModel.__init__ demo_ps 2 0 true, demo_world) /\
  eval_ldm np_interp [0.25; 0.5]%float (LDTkLDModel._mu demo_ps)
    (LDTkLDModel._z demo_ps) (LDTkLDModel._ldps demo_ps) 2 0 (nb_rng demo_world)
  = (Raise ValueError, nb_rng demo_world) /\
  eval_ldm np_interp [0.25; 0.5]%float (LDTkLDModel._mu demo_ps)
    (LDTkLDModel._z demo_ps) (LDTkLDModel._ldps demo_ps) 0 0 (nb_rng demo_world)
  = (Ok ([], []), nb_rng demo_world).
Proof.
  destruct (call_empty_range_raises np_interp
              (LDTkLDModel.__init__ demo_ps 2 0 true)
              [0.25; 0.5]%float None demo_world) as (H1 & H2 & H3).
  - discriminate.
  - split; [exact H1|]. split; [apply H2; lia | apply H3].
Defined.

Lemma call_generator_use_witness :
  let w' := (LDTkLDModel.__call__ np_interp (demo_model false) [0.25; 0.5]%float
               (Some [[1]; [2]; [3]]%float) demo_world).2 in
  (forall n, np_rng w' n = np_rng demo_world (1 + n)) /\
  (forall n, nb_rng w' n = nb_rng demo_world (3 + n)).
Proof.
  destruct (call_generator_use np_interp (demo_model false) [0.25; 0.5]%float
              (Some [[1]; [2]; [3]]%float) demo_world eq_refl) as (H1 & _ & H3).
  split; [exact H1 | exact (H3 eq_refl)].
Defined.

Lemma eval_ldm_constant_library_witness :
  (eval_ldm np_interp [0.25; 0.5; 2]%float (LDTkLDModel._mu demo_ps)
     (LDTkLDModel._z demo_ps)
     (map (replicate 3) (LDTkLDModel.profile_averages demo_ps)) 4 3
     (nb_rng demo_world)).1
  = Ok (eval_ldm_frozen np_interp [0.25; 0.5; 2]%float (LDTkLDModel._mu demo_ps)
          (LDTkLDModel._z demo_ps) (LDTkLDModel.profile_averages demo_ps) 4).
Proof.
  apply (eval_ldm_constant_library np_interp [0.25; 0.5; 2]%float
           (LDTkLDModel._mu demo_ps) (LDTkLDModel._z demo_ps)
           (LDTkLDModel.profile_averages demo_ps) 4 3 (nb_rng demo_world)).
  lia.
Defined.

(** ** The binner: where a sample is counted *)

Section BinnerPlacement.
Context {F : Type} `{Float64 F}.

Lemma mask_sum_cons (b : bool) (bmask : list bool) :
  mask_sum (b :: bmask) = (if b then 1 else 0) + mask_sum bmask.
Proof.
  unfold mask_sum. destruct b.
  - rewrite filter_cons_True by reflexivity. reflexivity.
  - rewrite filter_cons_False by discriminate. reflexivity.
Qed.

(** Among the bin indices [0 .. n-1] exactly one equals [b] when [b] is one
    of them, and none otherwise. *)
Lemma arange_hits (n : nat) (b : Z) :
  sum_list_with (fun bid => if (bid =? b)%Z then 1 else 0) (map Z.of_nat (seq 0 n))
  = if ((0 <=? b) && (b <? Z.of_nat n))%Z then 1 else 0.
Proof.
  induction n as [|n IH].
  { change (Z.of_nat 0) with 0%Z. simpl.
    destruct (Z.leb_spec 0 b); destruct (Z.ltb_spec b 0); cbn; lia. }
  rewrite seq_S, map_app, sum_list_with_app, IH. cbn [map sum_list_with].
  destruct (Z.eqb_spec (Z.of_nat (0 + n)) b) as [Heq|Hne];
    destruct (Z.leb_spec 0 b); destruct (Z.ltb_spec b (Z.of_nat n));
    destruct (Z.ltb_spec b (Z.of_nat (S n))); cbn; lia.
Qed.

Lemma bin_sizes_cons (b : Z) (bids l : list Z) :
  sum_list_with (fun bid => mask_sum (bin_mask bid (b :: bids))) l
  = sum_list_with (fun bid => if (bid =? b)%Z then 1 else 0) l
    + sum_list_with (fun bid => mask_sum (bin_mask bid bids)) l.
Proof.
  induction l as [|a l IHl]; [reflexivity|].
  cbn [sum_list_with]. rewrite IHl.
  unfold bin_mask at 1. cbn [map]. rewrite mask_sum_cons.
  fold (bin_mask a bids). lia.
Qed.

(** The sizes of the bins add up to the number of samples whose bin index
    is one of the bins. *)
Lemma bin_sizes_total (bids : list Z) (n : Z) :
  sum_list_with (fun bid => mask_sum (bin_mask bid bids)) (arange n)
  = length (List.filter (fun b => ((0 <=? b) && (b <? n))%Z) bids).
Proof.
  induction bids as [|b bids IH].
  - simpl. induction (arange n) as [|a l IHl]; [reflexivity|]. simpl. exact IHl.
  - rewrite bin_sizes_cons, IH. unfold arange. rewrite arange_hits. cbn [List.filter].
    destruct (Z.leb_spec 0 b); destruct (Z.ltb_spec b n);
      destruct (Z.ltb_spec b (Z.of_nat (Z.to_nat n))); cbn; lia.
Qed.

Lemma first_above_le (x : F) (bins : list F) : first_above x bins <= length bins.
Proof.
  induction bins as [|b bins IH]; [reflexivity|].
  simpl. destruct (fltb x b); lia.
Qed.

Lemma first_above_none (x : F) (bins : list F) :
  Forall (fun e => fltb x e = false) bins -> first_above x bins = length bins.
Proof.
  induction 1 as [|e bins He _ IH]; [reflexivity|].
  simpl. rewrite He, IH. reflexivity.
Qed.

Lemma bin_mask_miss (bid : Z) (bids : list Z) :
  Forall (fun b => b <> bid) bids -> mask_sum (bin_mask bid bids) = 0.
Proof.
  induction 1 as [|b bids Hb _ IH]; [reflexivity|].
  unfold bin_mask. cbn [map]. rewrite mask_sum_cons. fold (bin_mask bid bids).
  rewrite IH. destruct (Z.eqb_spec bid b); [congruence | reflexivity].
Qed.

End BinnerPlacement.

Section BinnerPlacementClaims.
Context {F : Type} `{Float64 F}.

Lemma bin_sizes_count (time : list F) (inttime : F) (nbins : Z) :
  sum_list (bin_sizes time inttime nbins)
  = length (List.filter (fun b => ((0 <=? b) && (b <? nbins))%Z)
              (bin_ids time inttime nbins)).
Proof.
  assert (E : sum_list (bin_sizes time inttime nbins)
              = sum_list_with
                  (fun bid => mask_sum (bin_mask bid (bin_ids time inttime nbins)))
                  (arange nbins)).
  { unfold bin_sizes. induction (arange nbins) as [|a l IHl]; [reflexivity|].
    cbn [map sum_list_with id]. rewrite <- IHl. reflexivity. }
  rewrite E. apply bin_sizes_total.
Qed.

(** No sample is counted twice: the sizes of the bins add up to the number
    of samples whose bin index [digitize(time, edges) - 1] is one of
    [0 .. nbins-1], which is at most the number of samples. *)
Theorem bins_are_disjoint (time : list F) (inttime : F) (nbins : Z) :
  sum_list (bin_sizes time inttime nbins)
  = length (List.filter (fun b => ((0 <=? b) && (b <? nbins))%Z)
              (bin_ids time inttime nbins)) /\
  sum_list (bin_sizes time inttime nbins) <= length time.
Proof.
  split; [apply bin_sizes_count|].
  rewrite bin_sizes_count.
  etransitivity; [apply List.filter_length_le|].
  unfold bin_ids, digitize. rewrite !length_map. reflexivity.
Qed.

(** Where a sample goes.  Its bin index is [-1] or one of [0 .. nbins-1].  A
    sample below the first edge has the index [-1], which is no bin: it is
    left out of every bin.  A sample below no edge, so one at or beyond the
    last edge, is counted in the last bin. *)
Theorem sample_placement (time : list F) (inttime : F) (nbins : Z) (j : nat) (x : F) :
  time !! j = Some x ->
  let edges := bin_edges time inttime (arange nbins) in
  exists b : Z,
    bin_ids time inttime nbins !! j = Some b /\
    (-1 <= b < Z.of_nat (Z.to_nat nbins))%Z /\
    (fisnan x = false -> (exists e0, edges !! 0 = Some e0 /\ fltb x e0 = true) ->
     b = (-1)%Z /\ forall bid, In bid (arange nbins) -> (bid =? b)%Z = false) /\
    (fisnan x = false -> Forall (fun e => fltb x e = false) edges ->
     b = (Z.of_nat (Z.to_nat nbins) - 1)%Z).
Proof.
  intros Hx edges.
  assert (Hlen : length edges = Z.to_nat nbins).
  { unfold edges, bin_edges. rewrite length_map. apply length_arange. }
  exists (digitize_scalar x edges - 1)%Z. split.
  { unfold bin_ids, digitize. rewrite !lookup_map, Hx. reflexivity. }
  split.
  { unfold digitize_scalar. pose proof (first_above_le x edges).
    destruct (fisnan x); lia. }
  split.
  - intros Hnan (e0 & He0 & Hlt). unfold digitize_scalar. rewrite Hnan.
    destruct edges as [|e edges']; [discriminate|].
    injection He0 as ->. cbn [first_above]. rewrite Hlt. split; [reflexivity|].
    intros bid Hbid. unfold arange in Hbid. apply in_map_iff in Hbid as (i & <- & _).
    apply Z.eqb_neq. lia.
  - intros Hnan Hnone. unfold digitize_scalar. rewrite Hnan.
    rewrite (first_above_none x edges Hnone), Hlen. reflexivity.
Qed.

End BinnerPlacementClaims.

Lemma sample_placement_witness :
  let time := [4; 0; 1; 2; 5; 6; 8]%float in
  bin_ids time 4%float 2 !! 1 = Some (-1)%Z /\
  bin_ids time 4%float 2 !! 6 = Some 1%Z.
Proof.
  intros time. split.
  - destruct (sample_placement time 4%float 2 1 0%float eq_refl)
      as (b & Hb & _ & Hlow & _).
    destruct (Hlow eq_refl) as [-> _]; [|exact Hb].
    exists 4%float. split; reflexivity.
  - destruct (sample_placement time 4%float 2 6 8%float eq_refl)
      as (b & Hb & _ & _ & Hhigh).
    rewrite (Hhigh eq_refl) in Hb; [exact Hb|].
    repeat constructor.
Defined.

(** ** The disk integral over the real numbers *)

Section DiskIntegralMore.
Local Open Scope R_scope.

Lemma length_arr_mul (z p : list R) :
  length p = length z -> length (arr_mul z p) = length z.
Proof. intros Hlen. unfold arr_mul. rewrite length_zip_with. lia. Qed.

Lemma trapezoid_rec_cons2 (x0 x1 y0 y1 : R) (x y : list R) :
  trapezoid_rec (x0 :: x1 :: x) (y0 :: y1 :: y)
  = (x1 - x0) * (y1 + y0) / 2 + trapezoid_rec (x1 :: x) (y1 :: y).
Proof. reflexivity. Qed.

(** One more point adds one more trapezoid. *)
Lemma trapezoid_rec_snoc (x y : list R) (xl yl a b : R) :
  length x = length y ->
  trapezoid_rec (x ++ [xl; a]) (y ++ [yl; b])
  = trapezoid_rec (x ++ [xl]) (y ++ [yl]) + (a - xl) * (b + yl) / 2.
Proof.
  revert y. induction x as [|x0 x IH]; intros y Hlen.
  - destruct y; [|discriminate]. simpl. lra.
  - destruct y as [|y0 y]; [discriminate|]. simpl in Hlen.
    specialize (IH y ltac:(lia)).
    destruct x as [|x1 x]; destruct y as [|y1 y]; try discriminate.
    + cbn [app] in *. rewrite !trapezoid_rec_cons2. simpl. lra.
    + cbn [app] in *. rewrite !trapezoid_rec_cons2, IH. lra.
Qed.

Lemma trapezoid_rec_rev (x y : list R) :
  length x = length y ->
  trapezoid_rec (rev x) (rev y) = - trapezoid_rec x y.
Proof.
  revert y. induction x as [|x0 x IH]; intros y Hlen.
  - destruct y; [|discriminate]. simpl. lra.
  - destruct y as [|y0 y]; [discriminate|]. simpl in Hlen.
    destruct x as [|x1 x]; destruct y as [|y1 y]; try discriminate.
    + simpl. lra.
    + specialize (IH (y1 :: y) ltac:(simpl in *; lia)).
      cbn [rev] in IH. rewrite trapezoid_rec_cons2. cbn [rev].
      rewrite <- !app_assoc. cbn [app].
      rewrite trapezoid_rec_snoc by (rewrite !length_rev; simpl in Hlen; lia).
      rewrite IH. lra.
Qed.

Lemma trapezoid_rec_scale (c : R) (z : list R) :
  trapezoid_rec z (arr_mul z (replicate (length z) c)) = c * trapezoid_rec z z.
Proof.
  induction z as [|z0 z IH]; [simpl; lra|].
  destruct z as [|z1 z]; [simpl; lra|].
  change (arr_mul (z0 :: z1 :: z) (replicate (length (z0 :: z1 :: z)) c))
    with (z0 * c :: arr_mul (z1 :: z) (replicate (length (z1 :: z)) c)).
  change (arr_mul (z1 :: z) (replicate (length (z1 :: z)) c))
    with (z1 * c :: arr_mul z (replicate (length z) c)) in *.
  rewrite !trapezoid_rec_cons2, IH. lra.
Qed.

Lemma length_int_z : length (LDModel._int_z (@LDModel.__init__ R _)) = 200%nat.
Proof.
  cbn [LDModel.__init__ LDModel._int_z]. rewrite (linspace_unit 199) by lia.
  rewrite length_map, length_seq. reflexivity.
Qed.

Lemma lookup_int_z (i : nat) :
  (i < 200)%nat ->
  LDModel._int_z (@LDModel.__init__ R _) !! i = Some (INR i / 199).
Proof.
  intros Hi. cbn [LDModel.__init__ LDModel._int_z].
  rewrite (linspace_unit 199) by lia.
  rewrite lookup_map, lookup_seq_lt by lia. cbn [fmap option_fmap option_map Nat.add].
  do 2 f_equal. rewrite INR_IZR_INZ. reflexivity.
Qed.

End DiskIntegralMore.

Section DiskIntegralClaims.
Local Open Scope R_scope.

Lemma arr_mul_rev (z p : list R) :
  length p = length z -> arr_mul (rev z) (rev p) = rev (arr_mul z p).
Proof.
  revert p. induction z as [|z0 z IH]; intros p Hlen.
  - destruct p; [reflexivity | discriminate].
  - destruct p as [|p0 p]; [discriminate|]. simpl in Hlen.
    unfold arr_mul in *. cbn [rev zip_with].
    rewrite zip_with_app by (rewrite !length_rev; lia).
    rewrite IH by lia. reflexivity.
Qed.

(** Over the real numbers, reading the grid and the values backwards changes
    the sign of the integral and nothing else; so the coefficient
    [-2π · ntrapz(z, z · I)] of a profile on a grid that descends is the
    opposite of its coefficient on the same grid ascending. *)
Theorem ntrapz_reversed (x y : list R) :
  length x = length y ->
  ntrapz (rev x) (rev y) = - ntrapz x y /\
  disk_coefficient (rev x) (rev y) = - disk_coefficient x y.
Proof.
  intros Hlen.
  assert (Hrev : forall a b : list R, length a = length b ->
            ntrapz (rev a) (rev b) = - ntrapz a b).
  { intros a b Hab.
    rewrite !ntrapz_trapezoid_sum, !trapezoid_sum_rec
      by (rewrite ?length_rev; exact Hab).
    apply trapezoid_rec_rev. exact Hab. }
  split; [apply Hrev; exact Hlen|].
  unfold disk_coefficient. rewrite arr_mul_rev by (symmetry; exact Hlen).
  rewrite Hrev by (symmetry; apply length_arr_mul; symmetry; exact Hlen).
  cbn. ring.
Qed.

Lemma ntrapz_reversed_witness :
  ntrapz [1; 1 / 2; 0] [3; 2; 1] = - ntrapz [0; 1 / 2; 1] [1; 2; 3] /\
  disk_coefficient [1; 1 / 2; 0] [3; 2; 1] = - disk_coefficient [0; 1 / 2; 1] [1; 2; 3].
Proof.
  apply (ntrapz_reversed [0; 1 / 2; 1] [1; 2; 3]). reflexivity.
Defined.

(** Over the real numbers, the coefficient of a constant profile [c] depends
    on the two ends of the grid only: it is [-π · c · (z_last² - z_first²)],
    whatever the points in between and their order.  On a grid from 0 to 1
    that is [-π c]; on a grid from 1 down to 0 it is [+π c]. *)
Theorem constant_profile_coefficient (c z0 : R) (z : list R) :
  disk_coefficient (z0 :: z) (replicate (length (z0 :: z)) c)
  = - PI * c * (List.last z z0 * List.last z z0 - z0 * z0).
Proof.
  rewrite disk_coefficient_R.
  rewrite trapezoid_sum_rec
    by (symmetry; apply length_arr_mul, length_replicate).
  rewrite trapezoid_rec_scale, trapezoid_rec_identity. lra.
Qed.

(** Over the real numbers, the [integrate] of the base class and the
    coefficient of the sampled model are opposite numbers on one grid and
    one profile. *)
Theorem integrate_is_minus_coefficient
    (call : LDModel.t R -> list R -> list R -> result (list R))
    (self : LDModel.t R) (x p : list R) :
  call self (LDModel._int_mu self) x = Ok p ->
  length p = length (LDModel._int_z self) ->
  LDModel.integrate call self x = Ok (- disk_coefficient (LDModel._int_z self) p).
Proof.
  intros Hcall Hlen. unfold LDModel.integrate. rewrite Hcall. f_equal.
  rewrite np_trapz_rec, disk_coefficient_R.
  rewrite trapezoid_sum_rec by (symmetry; apply length_arr_mul; exact Hlen).
  cbn. ring.
Qed.

Lemma integrate_is_minus_coefficient_witness :
  LDModel.integrate (fun _ _ _ => Ok [1; 2; 3]) (LDModel.Build [0; 1 / 2; 1] [1; 1; 0]) []
  = Ok (- disk_coefficient [0; 1 / 2; 1] [1; 2; 3]).
Proof.
  apply (integrate_is_minus_coefficient (fun _ _ _ => Ok [1; 2; 3])
           (LDModel.Build [0; 1 / 2; 1] [1; 1; 0]) [] [1; 2; 3]); reflexivity.
Defined.

(** Over the real numbers, the grid of the base class is [z_i = i / 199] for
    [i = 0 .. 199], and [_int_mu] pairs every [z_i] with the [mu_i] on the
    unit circle: [mu_i² + z_i² = 1], both within [[0, 1]]. *)
Theorem base_grid_on_unit_circle (i : nat) :
  (i < 200)%nat ->
  exists zi mui : R,
    LDModel._int_z (@LDModel.__init__ R _) !! i = Some zi /\
    LDModel._int_mu (@LDModel.__init__ R _) !! i = Some mui /\
    zi = INR i / 199 /\ mui * mui + zi * zi = 1 /\
    0 <= zi <= 1 /\ 0 <= mui <= 1.
Proof.
  intros Hi. pose proof (lookup_int_z i Hi) as Hz.
  assert (Hi' : 0 <= INR i <= 199).
  { split; [apply pos_INR|].
    replace 199 with (INR 199) by (rewrite INR_IZR_INZ; reflexivity).
    apply le_INR. lia. }
  assert (Hzi : 0 <= INR i / 199 <= 1).
  { split.
    - apply Rmult_le_pos; lra.
    - apply (Rmult_le_reg_r 199); [lra|]. unfold Rdiv.
      rewrite Rmult_assoc, Rinv_l by lra. lra. }
  exists (INR i / 199), (R_sqrt.sqrt (1 - INR i / 199 * (INR i / 199))).
  split; [exact Hz|]. split.
  { change (LDModel._int_mu (@LDModel.__init__ R _))
      with (map (fun v : R => R_sqrt.sqrt (1 - v * v))
              (LDModel._int_z (@LDModel.__init__ R _))).
    rewrite lookup_map, Hz. reflexivity. }
  split; [reflexivity|].
  assert (Hsq : 0 <= 1 - INR i / 199 * (INR i / 199)) by nra.
  split; [rewrite sqrt_sqrt by exact Hsq; lra|].
  split; [exact Hzi|]. split; [apply sqrt_pos|].
  rewrite <- sqrt_1 at 2. apply sqrt_le_1_alt. nra.
Qed.

Lemma base_grid_on_unit_circle_witness :
  exists zi mui : R,
    LDModel._int_z (@LDModel.__init__ R _) !! 199%nat = Some zi /\
    LDModel._int_mu (@LDModel.__init__ R _) !! 199%nat = Some mui /\
    zi = INR 199 / 199 /\ mui * mui + zi * zi = 1 /\
    0 <= zi <= 1 /\ 0 <= mui <= 1.
Proof. apply (base_grid_on_unit_circle 199). lia. Defined.

Lemma int_z_last :
  exists (z0 : R) (z : list R),
    LDModel._int_z (@LDModel.__init__ R _) = z0 :: z /\ z0 = 0 /\ List.last z z0 = 1.
Proof.
  destruct int_z_increasing as (z1 & z & Hz & Hlen & _).
  exists 0, (z1 :: z). split; [exact Hz|]. split; [reflexivity|].
  pose proof (lookup_int_z 199 ltac:(lia)) as H199.
  replace (INR 199) with 199 in H199 by (rewrite INR_IZR_INZ; reflexivity).
  pose proof (last_lookup (LDModel._int_z (@LDModel.__init__ R _))) as Hlast.
  rewrite length_int_z in Hlast. cbn [Nat.pred] in Hlast.
  rewrite H199, Hz, stdpp_last_cons in Hlast.
  assert (E : List.last (z1 :: z) 0 = 199 / 199) by congruence.
  rewrite E. lra.
Qed.

(** Over the real numbers, the [integrate] of the base class returns [π c]
    for a model whose [__call__] gives the constant profile [c] on the
    grid: the trapezoids under [z · c] on [linspace(0, 1, 200)] add up to
    [c / 2] exactly. *)
Theorem integrate_constant_profile
    (call : LDModel.t R -> list R -> list R -> result (list R)) (x : list R) (c : R) :
  call LDModel.__init__ (LDModel._int_mu LDModel.__init__) x = Ok (replicate 200 c) ->
  LDModel.integrate call LDModel.__init__ x = Ok (PI * c).
Proof.
  intros Hcall. unfold LDModel.integrate. rewrite Hcall. f_equal.
  rewrite np_trapz_rec, <- length_int_z, trapezoid_rec_scale.
  destruct int_z_last as (z0 & z & -> & -> & Hlast).
  rewrite trapezoid_rec_identity, Hlast. cbn. lra.
Qed.

Lemma integrate_constant_profile_witness :
  LDModel.integrate (fun _ _ _ => Ok (replicate 200 3)) LDModel.__init__ [] = Ok (PI * 3).
Proof.
  apply (integrate_constant_profile (fun _ _ _ => Ok (replicate 200 3)) [] 3).
  reflexivity.
Defined.

End DiskIntegralClaims.

(** ** The binner on a series that spans no time *)

Section ConstantTimes.

(** A finite binary64 number is a zero or has a mantissa and an exponent. *)
Lemma finite_cases (t : float) :
  PrimFloat.is_finite t = true ->
  (exists s, Prim2SF t = S754_zero s) \/ (exists s m e, Prim2SF t = S754_finite s m e).
Proof.
  unfold PrimFloat.is_finite, PrimFloat.is_nan, PrimFloat.is_infinity.
  rewrite !FloatAxioms.eqb_spec, abs_spec.
  change (Prim2SF infinity) with (S754_infinity false).
  destruct (Prim2SF t) as [s|s| |s m e]; [eauto | destruct s; cbn; discriminate
                                          | cbn; discriminate | eauto 6].
Qed.

(** A finite number minus itself is zero. *)
Lemma sub_self_zero (t : float) :
  PrimFloat.is_finite t = true -> Prim2SF (t - t)%float = S754_zero false.
Proof.
  intros Hfin. rewrite sub_spec.
  destruct (finite_cases t Hfin) as [[s ->] | (s & m & e & ->)].
  - destruct s; reflexivity.
  - unfold SF64sub, SFsub. rewrite Z.sub_diag. reflexivity.
Qed.

(** Zero over a positive width is zero, and its ceiling is the integer 0. *)
Lemma zero_span_bin_count (d inttime : float) :
  Prim2SF d = S754_zero false -> PrimFloat.ltb 0 inttime = true ->
  float_ceil_int (d / inttime)%float = 0%Z.
Proof.
  intros Hd Hpos. unfold float_ceil_int. rewrite div_spec, Hd.
  rewrite FloatAxioms.ltb_spec in Hpos.
  change (Prim2SF 0) with (S754_zero false) in Hpos.
  destruct (Prim2SF inttime) as [s|s| |s m e]; try destruct s; cbn in *;
    try discriminate; reflexivity.
Qed.

Lemma fold_max_same (t : float) (n : nat) : fold_left max_step (replicate n t) t = t.
Proof.
  induction n as [|n IH]; [reflexivity|]. cbn [replicate fold_left].
  replace (max_step t t) with t; [exact IH|].
  unfold max_step. destruct (fisnan t); [reflexivity|]. destruct (fltb t t); reflexivity.
Qed.

Lemma fold_min_same (t : float) (n : nat) : fold_left min_step (replicate n t) t = t.
Proof.
  induction n as [|n IH]; [reflexivity|]. cbn [replicate fold_left].
  replace (min_step t t) with t; [exact IH|].
  unfold min_step. destruct (fisnan t); [reflexivity|]. destruct (fltb t t); reflexivity.
Qed.

(** On binary64, a series whose samples all carry one finite time stamp, a
    series of a single sample among them, spans no time: for every bin width
    above zero the bin count is 0 and the binner returns three empty arrays,
    whatever the values. *)
Theorem constant_times_give_no_bins (t : float) (n : nat) (vals : list float)
    (inttime : float) :
  PrimFloat.is_finite t = true -> PrimFloat.ltb 0 inttime = true ->
  bin_count (replicate (S n) t) inttime = Ok 0%Z /\
  downsample_time (replicate (S n) t) vals inttime = Ok ([], [], []).
Proof.
  intros Hfin Hpos.
  assert (Hcount : bin_count (replicate (S n) t) inttime = Ok 0%Z).
  { unfold bin_count. cbn [replicate array_max array_min].
    rewrite fold_max_same, fold_min_same.
    cbn [feqb fzero fsub fdiv fceil_int float_float64 f64_arith float_arith].
    rewrite (float_pos_nonzero inttime Hpos).
    rewrite (zero_span_bin_count _ inttime (sub_self_zero t Hfin) Hpos). reflexivity. }
  split; [exact Hcount|].
  rewrite (downsample_time_closed _ vals inttime 0 Hcount ltac:(lia)). reflexivity.
Qed.

End ConstantTimes.

Lemma constant_times_give_no_bins_witness :
  bin_count [7.5; 7.5; 7.5; 7.5]%float 0.25%float = Ok 0%Z /\
  downsample_time [7.5; 7.5; 7.5; 7.5]%float [1; 2; 3; 4]%float 0.25%float
  = Ok ([], [], []).
Proof.
  apply (constant_times_give_no_bins 7.5%float 3 [1; 2; 3; 4]%float 0.25%float);
    reflexivity.
Defined.

(** ** Linearity of the coefficient, and the grid on binary64 *)

Section Linearity.
Local Open Scope R_scope.

Lemma trapezoid_rec_linear (a b : R) (z p q : list R) :
  length p = length z -> length q = length z ->
  trapezoid_rec z (arr_mul z (zip_with (fun u v => a * u + b * v) p q))
  = a * trapezoid_rec z (arr_mul z p) + b * trapezoid_rec z (arr_mul z q).
Proof.
  revert p q. induction z as [|z0 z IH]; intros p q Hp Hq; [simpl; ring|].
  destruct p as [|p0 p]; [discriminate|]. destruct q as [|q0 q]; [discriminate|].
  simpl in Hp, Hq.
  destruct z as [|z1 z]; [simpl; ring|].
  destruct p as [|p1 p]; [discriminate|]. destruct q as [|q1 q]; [discriminate|].
  specialize (IH (p1 :: p) (q1 :: q) ltac:(simpl in *; lia) ltac:(simpl in *; lia)).
  unfold arr_mul in *. cbn [zip_with] in *.
  rewrite !trapezoid_rec_cons2, IH. cbn [fmul R_arith]. field.
Qed.

(** Over the real numbers, the coefficient is linear in the profile: the
    coefficient of [a · p + b · q] is [a] times that of [p] plus [b] times
    that of [q], for profiles on the grid. *)
Theorem disk_coefficient_linear (a b : R) (z p q : list R) :
  length p = length z -> length q = length z ->
  disk_coefficient z (zip_with (fun u v => a * u + b * v) p q)
  = a * disk_coefficient z p + b * disk_coefficient z q.
Proof.
  intros Hp Hq. rewrite !disk_coefficient_R.
  rewrite !trapezoid_sum_rec
    by (symmetry; apply length_arr_mul; rewrite ?length_zip_with; lia).
  rewrite trapezoid_rec_linear by assumption. lra.
Qed.

Lemma disk_coefficient_linear_witness :
  disk_coefficient [0; 1 / 2; 1]
    (zip_with (fun u v => 1 / 2 * u + 1 / 2 * v) [1; 2; 3] [3; 2; 1])
  = 1 / 2 * disk_coefficient [0; 1 / 2; 1] [1; 2; 3]
    + 1 / 2 * disk_coefficient [0; 1 / 2; 1] [3; 2; 1].
Proof.
  apply (disk_coefficient_linear (1 / 2) (1 / 2) [0; 1 / 2; 1] [1; 2; 3] [3; 2; 1]);
    reflexivity.
Defined.

End Linearity.

(** On binary64, the grids the constructor of the base class computes: 200
    points each; [_int_z] starts at exactly 0, ends at exactly 1 and
    increases strictly; no rounding takes a [z] above 1, so every [_int_mu]
    is a number (not NaN) within [[0, 1]], from exactly 1 down to exactly
    0. *)
Theorem base_grid_binary64 :
  let z := LDModel._int_z (@LDModel.__init__ float _) in
  let mu := LDModel._int_mu (@LDModel.__init__ float _) in
  length z = 200 /\ length mu = 200 /\
  head z = Some 0%float /\ last z = Some 1%float /\
  forallb (fun ab => PrimFloat.ltb ab.1 ab.2) (zip z (drop 1 z)) = true /\
  forallb (fun v => PrimFloat.leb 0 v && PrimFloat.leb v 1) mu = true /\
  forallb (fun ab => PrimFloat.ltb ab.2 ab.1) (zip mu (drop 1 mu)) = true /\
  head mu = Some 1%float /\ last mu = Some 0%float.
Proof. vm_compute. repeat split; reflexivity. Qed.

Section BinnerComplete.
Context {F : Type} `{Float64 F}.

Lemma filter_all {A : Type} (p : A -> bool) (l : list A) :
  Forall (fun a => p a = true) l -> List.filter p l = l.
Proof.
  induction 1 as [|a l Ha _ IH]; [reflexivity|].
  simpl. rewrite Ha, IH. reflexivity.
Qed.

(** Nothing is lost when no sample lies below the first edge: with at least
    one bin, if no sample is NaN or below the first edge [time[0] + 0 *
    inttime], every sample is counted in exactly one bin, and the sizes of
    the bins add up to the number of samples. *)
Theorem all_samples_binned (time : list F) (inttime : F) (nbins : Z) (e0 : F) :
  (0 < nbins)%Z ->
  bin_edges time inttime (arange nbins) !! 0 = Some e0 ->
  Forall (fun x => fisnan x = false /\ fltb x e0 = false) time ->
  Forall (fun b => (0 <= b < nbins)%Z) (bin_ids time inttime nbins) /\
  sum_list (bin_sizes time inttime nbins) = length time.
Proof.
  intros Hpos He0 Htime.
  assert (Hids : Forall (fun b => (0 <= b < nbins)%Z) (bin_ids time inttime nbins)).
  { unfold bin_ids, digitize. rewrite !Forall_map.
    eapply Forall_impl; [exact Htime|]. intros x [Hnan Hlt]. cbn beta.
    set (edges := bin_edges time inttime (arange nbins)) in *.
    assert (Hlen : length edges = Z.to_nat nbins).
    { unfold edges, bin_edges. rewrite length_map. apply length_arange. }
    unfold digitize_scalar. rewrite Hnan.
    pose proof (first_above_le x edges) as Hle.
    destruct edges as [|e edges']; [discriminate|].
    injection He0 as ->. cbn [first_above] in *. rewrite Hlt in *.
    cbn [length] in *. lia. }
  split; [exact Hids|].
  rewrite bin_sizes_count.
  rewrite filter_all.
  - unfold bin_ids, digitize. rewrite !length_map. reflexivity.
  - eapply Forall_impl; [exact Hids|]. intros b Hb. cbn beta in *.
    apply andb_true_intro. split; [apply Z.leb_le | apply Z.ltb_lt]; lia.
Qed.

End BinnerComplete.

Lemma all_samples_binned_witness :
  let time := [0; 1; 2; 4; 5; 6; 8]%float in
  Forall (fun b => (0 <= b < 2)%Z) (bin_ids time 4%float 2) /\
  sum_list (bin_sizes time 4%float 2) = length time.
Proof.
  intros time.
  apply (all_samples_binned time 4%float 2 0%float); [lia | reflexivity |].
  repeat constructor.
Defined.
